(** * skrunk-feeds: a shallow embedding of [main.py]

    The script polls the feeds of a Skrunk server, follows the chain of
    "next" links found in the newest document of each feed, fetches the
    target post from Reddit and creates or updates a feed document.

    Python strings are modelled as Rocq [string]s over ASCII; Python
    integers as [Z].  Calls to the Skrunk session and to the Reddit client
    are answered by an oracle record [Api]; the program's observable
    behaviour is the list of [Event]s it produces (calls issued, log lines,
    feeds yielded by the [get_feeds] generator). *)

From Stdlib Require Import String Ascii List ZArith Bool Lia.
Import ListNotations.
Open Scope string_scope.

(** ** Character and string helpers *)

Definition chr (n : nat) : ascii := ascii_of_nat n.

(** The double quote character, used in the f-strings of the log messages. *)
Definition dquote : string := String (chr 34%nat) EmptyString.

Definition is_digit (c : ascii) : bool :=
  let n := nat_of_ascii c in ((48 <=? n) && (n <=? 57))%nat.
Definition is_upper (c : ascii) : bool :=
  let n := nat_of_ascii c in ((65 <=? n) && (n <=? 90))%nat.
Definition is_lower (c : ascii) : bool :=
  let n := nat_of_ascii c in ((97 <=? n) && (n <=? 122))%nat.
Definition is_alpha (c : ascii) : bool := is_upper c || is_lower c.

(** Python's [\w] on the ASCII range: letters, digits and underscore. *)
Definition is_word (c : ascii) : bool :=
  is_alpha c || is_digit c || Ascii.eqb c "_"%char.

Definition to_lower_char (c : ascii) : ascii :=
  if is_upper c then chr (nat_of_ascii c + 32)%nat else c.

Fixpoint str_lower (s : string) : string :=
  match s with
  | EmptyString => EmptyString
  | String c s' => String (to_lower_char c) (str_lower s')
  end.

Fixpoint str_forallb (p : ascii -> bool) (s : string) : bool :=
  match s with
  | EmptyString => true
  | String c s' => p c && str_forallb p s'
  end.

Fixpoint str_existsb (p : ascii -> bool) (s : string) : bool :=
  match s with
  | EmptyString => false
  | String c s' => p c || str_existsb p s'
  end.

(** [s.partition(c)] when [c] occurs: the text before and after its first
    occurrence. *)
Fixpoint partition_first (c : ascii) (s : string) : option (string * string) :=
  match s with
  | EmptyString => None
  | String d s' =>
      if Ascii.eqb d c then Some (EmptyString, s')
      else match partition_first c s' with
           | Some (a, b) => Some (String d a, b)
           | None => None
           end
  end.

(** [s.partition(c)[0]]. *)
Definition before_first (c : ascii) (s : string) : string :=
  match partition_first c s with Some (a, _) => a | None => s end.

(** [s.rpartition(c)[2]]: what follows the last occurrence of [c]. *)
Fixpoint after_last (c : ascii) (s : string) : string :=
  match s with
  | EmptyString => EmptyString
  | String d s' =>
      if str_existsb (fun x => Ascii.eqb x c) s' then after_last c s'
      else if Ascii.eqb d c then s' else s
  end.

(** [s.split(c)] with an explicit one-character separator. *)
Fixpoint py_split (c : ascii) (s : string) : list string :=
  match s with
  | EmptyString => [EmptyString]
  | String d s' =>
      if Ascii.eqb d c then EmptyString :: py_split c s'
      else match py_split c s' with
           | h :: t => String d h :: t
           | [] => [String d EmptyString]
           end
  end.

(** [l[-2::]]: the last two elements, or the whole list when shorter. *)
Definition last_two {A} (l : list A) : list A := skipn (length l - 2)%nat l.

Fixpoint list_string_eqb (l1 l2 : list string) : bool :=
  match l1, l2 with
  | [], [] => true
  | a :: t1, b :: t2 => String.eqb a b && list_string_eqb t1 t2
  | _, _ => false
  end.

(** ** The successor-marker regular expression

    The source searches the document body with
    [re.search(PATTERN, body)] and reads [m.group(1)], where PATTERN is the
    raw string below, written here with a space between each star and the
    parenthesis that follows it so that the comment stays closed:
    [\[[Nn]ext[^\w\]]* \]\(([^)]* )\)].
    Both starred classes exclude the character that must follow them
    (a closing bracket after the first, a closing parenthesis after the
    second), so each greedy run has no backtracking alternative: a match at
    a position is unique, and [re.search] returns the one at the leftmost
    position that has one. *)

(** [[^\w\]]*]: the longest prefix of non-word, non-[\]] characters is
    dropped. *)
Fixpoint skip_nonword (s : string) : string :=
  match s with
  | EmptyString => EmptyString
  | String c s' =>
      if negb (is_word c) && negb (Ascii.eqb c "]"%char) then skip_nonword s'
      else s
  end.

(** The captured group runs up to the first closing parenthesis. *)
Fixpoint take_group (s : string) : option string :=
  match s with
  | EmptyString => None
  | String c s' =>
      if Ascii.eqb c ")"%char then Some EmptyString
      else option_map (String c) (take_group s')
  end.

(** An anchored match of the pattern at the start of [s]; the result is
    group 1. *)
Definition match_next_at (s : string) : option string :=
  match s with
  | String b (String c (String e (String x (String t r)))) =>
      if Ascii.eqb b "["%char
         && (Ascii.eqb c "N"%char || Ascii.eqb c "n"%char)
         && Ascii.eqb e "e"%char && Ascii.eqb x "x"%char && Ascii.eqb t "t"%char
      then match skip_nonword r with
           | String k (String p r') =>
               if Ascii.eqb k "]"%char && Ascii.eqb p "("%char
               then take_group r' else None
           | _ => None
           end
      else None
  | _ => None
  end.

(** [re.search]: the first position where the pattern matches. *)
Fixpoint re_search_next (s : string) : option string :=
  match match_next_at s with
  | Some g => Some g
  | None =>
      match s with
      | EmptyString => None
      | String _ s' => re_search_next s'
      end
  end.

(** ** [urllib.parse.urlparse(url).hostname]

    The ASCII fragment of CPython's [urlsplit]: leading C0/space characters
    are stripped, tab, CR and LF removed, the scheme split off when the text
    before the first [:] is a valid scheme, the netloc taken after [//] up to
    the first of [/?#]; an unbalanced bracket in the netloc raises
    [ValueError].  The hostname drops the userinfo (up to the last [@]) and
    the port, and is lower-cased up to a [%] zone.  The validation of the
    text between brackets added in later CPython releases is not modelled. *)

Inductive HostResult :=
| HostErr (msg : string)
| HostNone
| HostSome (h : string).

Fixpoint lstrip_c0 (s : string) : string :=
  match s with
  | EmptyString => EmptyString
  | String c s' => if (nat_of_ascii c <=? 32)%nat then lstrip_c0 s' else s
  end.

Fixpoint remove_unsafe (s : string) : string :=
  match s with
  | EmptyString => EmptyString
  | String c s' =>
      let n := nat_of_ascii c in
      if ((n =? 9) || (n =? 10) || (n =? 13))%nat then remove_unsafe s'
      else String c (remove_unsafe s')
  end.

Definition is_scheme_char (c : ascii) : bool :=
  is_alpha c || is_digit c || Ascii.eqb c "+"%char || Ascii.eqb c "-"%char
  || Ascii.eqb c "."%char.

Definition strip_scheme (url : string) : string :=
  match partition_first ":"%char url with
  | Some (String c sch as scheme, rest) =>
      if is_alpha c && str_forallb is_scheme_char scheme then rest else url
  | _ => url
  end.

Definition is_netloc_delim (c : ascii) : bool :=
  Ascii.eqb c "/"%char || Ascii.eqb c "?"%char || Ascii.eqb c "#"%char.

Fixpoint take_netloc (s : string) : string :=
  match s with
  | EmptyString => EmptyString
  | String c s' => if is_netloc_delim c then EmptyString else String c (take_netloc s')
  end.

Definition netloc_of (url : string) : string :=
  match strip_scheme (remove_unsafe (lstrip_c0 url)) with
  | String a (String b rest) =>
      if Ascii.eqb a "/"%char && Ascii.eqb b "/"%char then take_netloc rest
      else EmptyString
  | _ => EmptyString
  end.

Definition has_char (c : ascii) (s : string) : bool :=
  str_existsb (fun x => Ascii.eqb x c) s.

Definition url_hostname (url : string) : HostResult :=
  let netloc := netloc_of url in
  if xorb (has_char "["%char netloc) (has_char "]"%char netloc)
  then HostErr "Invalid IPv6 URL"
  else
    let hostinfo := after_last "@"%char netloc in
    let hostname :=
      match partition_first "["%char hostinfo with
      | Some (_, bracketed) => before_first "]"%char bracketed
      | None => before_first ":"%char hostinfo
      end in
    match hostname with
    | EmptyString => HostNone
    | _ =>
        match partition_first "%"%char hostname with
        | Some (h, zone) => HostSome (str_lower h ++ "%" ++ zone)
        | None => HostSome (str_lower hostname)
        end
    end.

(** ** [datetime.fromtimestamp(t, timezone.utc).strftime('%Y-%m-%d %H:%M:%S')]

    On whole seconds; the date is computed with the proleptic Gregorian
    civil-from-days conversion. *)

Fixpoint dec_aux (fuel : nat) (n : Z) (acc : string) : string :=
  match fuel with
  | O => acc
  | S f =>
      let acc' := String (chr (48 + Z.to_nat (n mod 10))%nat) acc in
      if (n <? 10)%Z then acc' else dec_aux f (n / 10)%Z acc'
  end.

Definition z_to_dec (n : Z) : string := dec_aux 64 n EmptyString.

Fixpoint zeros (n : nat) : string :=
  match n with O => EmptyString | S k => String "0"%char (zeros k) end.

Definition pad (w : nat) (n : Z) : string :=
  let s := z_to_dec n in zeros (w - String.length s)%nat ++ s.

Definition civil_from_days (days : Z) : Z * Z * Z :=
  let z := (days + 719468)%Z in
  let era := (z / 146097)%Z in
  let doe := (z - era * 146097)%Z in
  let yoe := ((doe - doe / 1460 + doe / 36524 - doe / 146096) / 365)%Z in
  let doy := (doe - (365 * yoe + yoe / 4 - yoe / 100))%Z in
  let mp := ((5 * doy + 2) / 153)%Z in
  let d := (doy - (153 * mp + 2) / 5 + 1)%Z in
  let m := if (mp <? 10)%Z then (mp + 3)%Z else (mp - 9)%Z in
  let y := (yoe + era * 400 + (if (m <=? 2)%Z then 1 else 0))%Z in
  (y, m, d).

Definition fmt_utc (t : Z) : string :=
  let days := (t / 86400)%Z in
  let secs := (t mod 86400)%Z in
  let '(y, m, d) := civil_from_days days in
  pad 4 y ++ "-" ++ pad 2 m ++ "-" ++ pad 2 d ++ " "
  ++ pad 2 (secs / 3600)%Z ++ ":" ++ pad 2 ((secs mod 3600) / 60)%Z ++ ":"
  ++ pad 2 (secs mod 60)%Z.

(** ** Data model *)

(** [class Feed(TypedDict)].  The [created] timestamp is never read by the
    script and is left out. *)
Record Feed := {
  feed_id : string;
  feed_name : string;
  feed_creator : string;
  feed_inactive : bool;
  feed_kind : string;
  feed_url : string;
  feed_notify : bool;
  feed_origin : option string
}.

Definition set_origin (f : Feed) (o : option string) : Feed :=
  {| feed_id := feed_id f; feed_name := feed_name f;
     feed_creator := feed_creator f; feed_inactive := feed_inactive f;
     feed_kind := feed_kind f; feed_url := feed_url f;
     feed_notify := feed_notify f; feed_origin := o |}.

(** A document as returned by [getFeedDocuments].  The [Document] TypedDict
    declares [id], [feed], [author], [posted], [body], [body_html],
    [created] and [updated]; the timestamps are not read by the script and
    are left out.  The script also reads a ['url'] key, which the TypedDict
    does not declare: [doc_url] is [None] when the store's record has no
    such key, and then [doc['url']] raises [KeyError]. *)
Record Doc := {
  doc_id : string;
  doc_feed : string;
  doc_author : option string;
  doc_body : string;
  doc_body_html : string;
  doc_url : option string
}.

(** The fields of a PRAW submission read by the script; [post_author] is
    [None] for a deleted account, where [post.author.name] raises. *)
Record Post := {
  post_title : string;
  post_selftext : string;
  post_author : option string;
  post_created_utc : Z
}.

(** How [reddit.submission(url=...)] and the first read of the post can
    fail.  The constructor parses the URL and raises [InvalidURL] at once
    for a URL that names no submission; the post itself is loaded lazily,
    at the first attribute read, where a request error is raised.  The
    string is the exception's [str]. *)
Inductive PrawError :=
| PrawInvalidURL (msg : string)
| PrawFetchError (msg : string).

(** A Skrunk API result: its [__typename] and, for errors, its
    [message]. *)
Record Result := {
  res_typename : string;
  res_message : option string
}.

(** The arguments of [getFeedDocuments]. *)
Record DocQuery := {
  q_feed : string;
  q_start : Z;
  q_count : Z;
  q_sort_fields : list string;
  q_descending : bool
}.

(** The [document] dict built before the commit. *)
Record NewDoc := {
  nd_feed : string;
  nd_author : option string;
  nd_posted : option string;
  nd_body : string;
  nd_title : option string;
  nd_url : string
}.

Record Notification := {
  n_username : string;
  n_title : string;
  n_body : string;
  n_category : string
}.

(** The calls the script issues, to the Skrunk session or to Reddit. *)
Inductive Call :=
| CCountFeeds
| CGetFeeds (start count : Z)
| CGetFeedDocuments (q : DocQuery)
| CSubmission (url : string)
| CUpdateFeedDocument (id body : string)
| CCreateFeedDocument (d : NewDoc)
| CSendNotification (n : Notification).

Inductive Event :=
| ECall (c : Call)
| ELog (msg : string)
| EYield (f : Feed).

(** The backing-store writes. *)
Definition is_write (c : Call) : bool :=
  match c with
  | CUpdateFeedDocument _ _ | CCreateFeedDocument _ | CSendNotification _ => true
  | _ => false
  end.

Definition writes (evs : list Event) : list Call :=
  flat_map (fun e => match e with ECall c => if is_write c then [c] else [] | _ => [] end) evs.

Definition calls (evs : list Event) : list Call :=
  flat_map (fun e => match e with ECall c => [c] | _ => [] end) evs.

Definition logs (evs : list Event) : list string :=
  flat_map (fun e => match e with ELog m => [m] | _ => [] end) evs.

(** The answers of the Skrunk session and of the Reddit client.  [inl m]
    is a raised [SessionError] with message [m]; for [submission], [inl e]
    is the PRAW exception [e] raised by the constructor or by the lazy
    load. *)
Record Api := {
  count_feeds : string + Z;
  get_feeds_page : Z -> Z -> string + list Feed;
  get_feed_documents : DocQuery -> string + list Doc;
  submission : string -> PrawError + Post;
  update_feed_document : string -> string -> string + Result;
  create_feed_document : NewDoc -> string + Result;
  send_notification : Notification -> string + Result
}.

(** ** The script's monad

    [fetch_next_document] mutates the feed dict it is given (its ['origin']
    key), logs, calls the API, returns early or raises.  [M A] threads the
    feed, collects the events, and ends in [Cont] (fall through with a
    value), [Stop] (a [return] statement) or [Raise] (an exception).  An
    exception is written [Type: text], its class name then its [str]. *)

Inductive Res (A : Type) :=
| Cont (a : A)
| Stop
| Raise (exn : string).
Arguments Cont {A} a.
Arguments Stop {A}.
Arguments Raise {A} exn.

Definition M (A : Type) : Type := Feed -> Feed * list Event * Res A.

Definition ret {A} (a : A) : M A := fun f => (f, [], Cont a).

Definition bind {A B} (m : M A) (k : A -> M B) : M B :=
  fun f =>
    let '(f1, e1, r1) := m f in
    match r1 with
    | Cont a => let '(f2, e2, r2) := k a f1 in (f2, (e1 ++ e2)%list, r2)
    | Stop => (f1, e1, Stop)
    | Raise x => (f1, e1, Raise x)
    end.

Notation "x <- m ;; k" := (bind m (fun x => k))
  (at level 61, m at next level, right associativity).
Notation "m ;;; k" := (bind m (fun _ => k))
  (at level 61, right associativity).

Definition log (msg : string) : M unit := fun f => (f, [ELog msg], Cont tt).
Definition stop {A} : M A := fun f => (f, [], Stop).
Definition raise {A} (exn : string) : M A := fun f => (f, [], Raise exn).
Definition get_feed : M Feed := fun f => (f, [], Cont f).
Definition put_feed (f' : Feed) : M unit := fun _ => (f', [], Cont tt).

(** Issue a call; the answer is the oracle's. *)
Definition call {E R} (c : Call) (answer : E + R) : M (E + R) :=
  fun f => (f, [ECall c], Cont answer).

(** ** [get_feeds]

    [range(0, total, feed_batch_size)] for a positive step. *)
Definition range_len (start stop step : Z) : nat :=
  if (start <? stop)%Z then Z.to_nat ((stop - start + step - 1) / step)%Z else O.

Definition py_range (start stop step : Z) : list Z :=
  map (fun k => (start + step * Z.of_nat k)%Z) (seq 0 (range_len start stop step)).

Definition feed_batch_size : Z := 20.

Definition active_feeds (l : list Feed) : list Feed :=
  filter (fun f => negb (feed_inactive f)) l.

(** One batch: the [getFeeds] call, then either the active feeds yielded
    or the logged [SessionError]. *)
Definition get_feeds_batch (api : Api) (i : Z) : list Event :=
  ECall (CGetFeeds i feed_batch_size)
  :: match get_feeds_page api i feed_batch_size with
     | inl e => [ELog ("SKRUNK: " ++ e)]
     | inr feed_list => map EYield (active_feeds feed_list)
     end.

(** The generator, as the sequence of events it produces. *)
Definition get_feeds (api : Api) : list Event :=
  let '(pre, total) :=
    match count_feeds api with
    | inl e => ([ECall CCountFeeds; ELog ("SKRUNK: " ++ e)], 0%Z)
    | inr t => ([ECall CCountFeeds], t)
    end in
  (pre ++ flat_map (get_feeds_batch api) (py_range 0 total feed_batch_size))%list.

Definition yielded (evs : list Event) : list Feed :=
  flat_map (fun e => match e with EYield f => [f] | _ => [] end) evs.

(** ** [fetch_next_document], lines 145-165: kind check and origin *)

Definition markdown_recursive : string := "markdown_recursive".

(** Lines 149-165: the hostname of the feed URL decides the origin. *)
Definition resolve_origin : M unit :=
  feed <- get_feed ;;
  match url_hostname (feed_url feed) with
  | HostErr e => raise ("ValueError: " ++ e)
  | HostNone =>
      log ("ERROR: Feed " ++ feed_id feed ++ " has invalid URL " ++ dquote
           ++ feed_url feed ++ dquote) ;;; stop
  | HostSome hostname =>
      let addr := py_split "."%char hostname in
      if (length addr <? 1)%nat then
        log ("ERROR: Feed " ++ feed_id feed ++ " has invalid hostname " ++ dquote
             ++ hostname ++ dquote) ;;; stop
      else if list_string_eqb (last_two addr) ["reddit"; "com"] then
        put_feed (set_origin feed (Some "reddit"))
      else
        log ("ERROR: Could not determine origin for feed " ++ feed_id feed
             ++ " hostname " ++ dquote ++ hostname ++ dquote) ;;; stop
  end.

(** ** Lines 167-199: chain navigation

    The result is [(next_url, document_body, document_id)]. *)

Definition doc_query (feed : Feed) : DocQuery :=
  {| q_feed := feed_id feed; q_start := 0; q_count := 1;
     q_sort_fields := ["created"]; q_descending := true |}.

Definition navigate (api : Api) (feed : Feed)
  : M (string * option string * option string) :=
  let next_url := feed_url feed in
  if String.eqb (feed_kind feed) markdown_recursive then
    r <- call (CGetFeedDocuments (doc_query feed))
              (get_feed_documents api (doc_query feed)) ;;
    match r with
    | inl e => log ("SKRUNK: " ++ e) ;;; stop
    | inr [] => ret (next_url, None, None)
    | inr (doc :: _) =>
        match doc_url doc with
        | None => raise "KeyError: 'url'"
        | Some u =>
            match re_search_next (doc_body doc) with
            | Some g => ret (g, None, None)
            | None => ret (u, Some (doc_body doc), Some (doc_id doc))
            end
        end
    end
  else ret (next_url, None, None).

(** ** Lines 201-226: fetching the post

    [API.reddit.submission(url=next_url)] raises [InvalidURL] itself, before
    the second log line, when the URL names no submission.  Otherwise PRAW
    loads the post lazily: a failure to load it is raised at the first
    attribute read ([post.title]), after the second log line. *)

Definition no_body : string := "[ERROR: NO BODY]".

Definition fetch_post (api : Api) (feed : Feed) (next_url : string) : M NewDoc :=
  let document :=
    {| nd_feed := feed_id feed; nd_author := None; nd_posted := None;
       nd_body := no_body; nd_title := None; nd_url := next_url |} in
  match feed_origin feed with
  | Some o =>
      if String.eqb o "reddit" then
        log "Reaching out to Reddit API... " ;;;
        r <- call (CSubmission next_url) (submission api next_url) ;;
        match r with
        | inl (PrawInvalidURL m) => raise ("InvalidURL: " ++ m)
        | inl (PrawFetchError m) =>
            log "Fetched post data." ;;; raise ("PrawcoreException: " ++ m)
        | inr post =>
            log "Fetched post data." ;;;
            match post_author post with
            | None => raise "AttributeError: 'NoneType' object has no attribute 'name'"
            | Some a =>
                ret {| nd_feed := nd_feed document; nd_author := Some a;
                       nd_posted := Some (fmt_utc (post_created_utc post));
                       nd_body := post_selftext post;
                       nd_title := Some (post_title post);
                       nd_url := nd_url document |}
            end
        end
      else log ("ERROR: Cannot determine origin of feed " ++ feed_id feed) ;;; stop
  | None => log ("ERROR: Cannot determine origin of feed " ++ feed_id feed) ;;; stop
  end.

(** ** Lines 228-259: the commit *)

Definition notification (feed : Feed) : Notification :=
  {| n_username := feed_creator feed; n_title := feed_name feed;
     n_body := "A new post has been added to your feed."; n_category := "feed" |}.

(** [if document_id:] on a [str | None]. *)
Definition truthy (o : option string) : bool :=
  match o with Some s => negb (String.eqb s "") | None => false end.

(** [document_body == document['body']] with [document_body : str | None]. *)
Definition body_eqb (o : option string) (s : string) : bool :=
  match o with Some b => String.eqb b s | None => false end.

(** The create branch of the [try] block. *)
Definition create_call (api : Api) (feed : Feed) (document : NewDoc)
    : M (string + Result) :=
  r <- call (CCreateFeedDocument document) (create_feed_document api document) ;;
  match r with
  | inl e => ret (inl e)
  | inr result =>
      if feed_notify feed then
        n <- call (CSendNotification (notification feed))
                  (send_notification api (notification feed)) ;;
        match n with inl e => ret (inl e) | inr _ => ret (inr result) end
      else ret (inr result)
  end.

(** The [try] block: its value is [result], or the caught [SessionError]. *)
Definition commit_call (api : Api) (feed : Feed) (document_id document_body : option string)
    (document : NewDoc) : M (string + Result) :=
  match document_id with
  | Some id =>
      if truthy document_id then
        if body_eqb document_body (nd_body document) then stop
        else call (CUpdateFeedDocument id (nd_body document))
                  (update_feed_document api id (nd_body document))
      else create_call api feed document
  | None => create_call api feed document
  end.

(** Lines 251-259: the caught [SessionError], or the result's type check. *)
Definition commit_result (feed : Feed) (document_id : option string)
    (r : string + Result) : M unit :=
  match r with
  | inl e => log ("SKRUNK: " ++ e) ;;; stop
  | inr result =>
      if negb (String.eqb (res_typename result) "FeedDocument") then
        match res_message result with
        | Some m => log ("SKRUNK: " ++ m) ;;; stop
        | None => raise "KeyError: 'message'"
        end
      else
        log ((if truthy document_id then "Updated" else "Fetched new")
             ++ " document for feed " ++ feed_id feed)
  end.

Definition commit (api : Api) (feed : Feed) (document_id document_body : option string)
    (document : NewDoc) : M unit :=
  r <- commit_call api feed document_id document_body document ;;
  commit_result feed document_id r.

(** ** [fetch_next_document]

    Lines 167-259 are named [sync_feed]: they run on the feed dict as
    updated by the origin resolution. *)
Definition sync_feed (api : Api) (feed : Feed) : M unit :=
  nav <- navigate api feed ;;
  let '(next_url, document_body, document_id) := nav in
  document <- fetch_post api feed next_url ;;
  commit api feed document_id document_body document.

Definition fetch_next_document (api : Api) : M unit :=
  feed <- get_feed ;;
  if negb (String.eqb (feed_kind feed) markdown_recursive) then
    log ("ERROR: Invalid feed kind " ++ dquote ++ feed_kind feed ++ dquote
         ++ " in feed " ++ feed_id feed ++ "!") ;;; stop
  else
    resolve_origin ;;;
    feed <- get_feed ;;
    sync_feed api feed.

(** [str(e)] of an exception written [Type: text]: the text after the
    first [": "]. *)
Fixpoint exn_message (x : string) : string :=
  match x with
  | EmptyString => EmptyString
  | String c x' =>
      if Ascii.eqb c ":"%char then
        match x' with String " "%char r => r | _ => x' end
      else exn_message x'
  end.

(** The body of the loop in [main]: an exception escaping
    [fetch_next_document] is logged ([f'EXCEPTION: {e}'], which prints
    [str(e)]) and the loop moves on. *)
Definition process_feed (api : Api) (feed : Feed) : list Event :=
  let '(_, evs, r) := fetch_next_document api feed in
  (evs ++ match r with
          | Raise e => [ELog ("EXCEPTION: " ++ exn_message e)]
          | _ => []
          end)%list.

(** ** One iteration of the [while True] loop of [main]

    [for feed in get_feeds(api)]: the generator runs up to its next
    [yield], then the loop body processes the yielded feed (an exception
    being logged), then the generator resumes.  The [time.sleep] that ends
    the iteration has no observable event here. *)
Definition main_step (api : Api) (e : Event) : list Event :=
  match e with
  | EYield f => e :: process_feed api f
  | _ => [e]
  end.

Definition main_cycle (api : Api) : list Event :=
  flat_map (main_step api) (get_feeds api).

(** The feed passed through a computation is left as it was. *)
Definition keeps {A} (m : M A) : Prop := forall f, fst (fst (m f)) = f.

(** ** A reference backing store

    The Skrunk server is an external collaborator.  For the idempotence
    property, a store that keeps the documents newest first, answers
    [getFeedDocuments] with the newest documents of the feed, applies
    [updateFeedDocument] to the body of the document with that id and
    accepts every write. *)

Definition Store := list Doc.

Definition accepted : Result := {| res_typename := "FeedDocument"; res_message := None |}.

Definition store_api (s : Store) (reddit : string -> PrawError + Post) : Api :=
  {| count_feeds := inr 0%Z;
     get_feeds_page := fun _ _ => inr [];
     get_feed_documents := fun q =>
       inr (firstn (Z.to_nat (q_count q))
              (skipn (Z.to_nat (q_start q))
                 (filter (fun d => String.eqb (doc_feed d) (q_feed q)) s)));
     submission := reddit;
     update_feed_document := fun _ _ => inr accepted;
     create_feed_document := fun _ => inr accepted;
     send_notification := fun _ => inr {| res_typename := "Notification"; res_message := None |} |}.

Definition set_body (d : Doc) (b : string) : Doc :=
  {| doc_id := doc_id d; doc_feed := doc_feed d; doc_author := doc_author d;
     doc_body := b; doc_body_html := doc_body_html d; doc_url := doc_url d |}.

Definition apply_write (s : Store) (c : Call) : Store :=
  match c with
  | CUpdateFeedDocument id b =>
      map (fun d => if String.eqb (doc_id d) id then set_body d b else d) s
  | CCreateFeedDocument nd =>
      {| doc_id := "doc" ++ z_to_dec (Z.of_nat (length s)); doc_feed := nd_feed nd;
         doc_author := nd_author nd; doc_body := nd_body nd;
         doc_body_html := nd_body nd; doc_url := Some (nd_url nd) |} :: s
  | _ => s
  end.

Definition store_apply (s : Store) (evs : list Event) : Store :=
  fold_left apply_write (writes evs) s.

(** One polling pass over one feed against the store. *)
Definition sync_once (reddit : string -> PrawError + Post) (feed : Feed) (s : Store)
  : list Event * Store :=
  let evs := process_feed (store_api s reddit) feed in (evs, store_apply s evs).

Definition created (evs : list Event) : list NewDoc :=
  flat_map (fun c => match c with CCreateFeedDocument d => [d] | _ => [] end) (calls evs).

Definition updated (evs : list Event) : list (string * string) :=
  flat_map (fun c => match c with CUpdateFeedDocument i b => [(i, b)] | _ => [] end) (calls evs).

Definition notified (evs : list Event) : list Notification :=
  flat_map (fun c => match c with CSendNotification n => [n] | _ => [] end) (calls evs).

(** The document [fetch_post] builds from a loaded post. *)
Definition post_document (feed : Feed) (url : string) (post : Post) (a : string) : NewDoc :=
  {| nd_feed := feed_id feed; nd_author := Some a;
     nd_posted := Some (fmt_utc (post_created_utc post));
     nd_body := post_selftext post; nd_title := Some (post_title post);
     nd_url := url |}.

(** The origin resolution succeeds: the hostname ends in [reddit.com]. *)
Definition reddit_host (feed : Feed) : bool :=
  match url_hostname (feed_url feed) with
  | HostSome h => list_string_eqb (last_two (py_split "."%char h)) ["reddit"; "com"]
  | _ => false
  end.

(** The [getFeeds] requests among some events. *)
Definition page_calls (evs : list Event) : list (Z * Z) :=
  flat_map (fun c => match c with CGetFeeds i n => [(i, n)] | _ => [] end) (calls evs).

(** The total used by [get_feeds]: the count, or 0 when the count query
    failed. *)
Definition feeds_total (api : Api) : Z :=
  match count_feeds api with inl _ => 0%Z | inr t => t end.

(** ** Example inputs

    The feed and posts of the scenarios of the specification. *)

Definition ex_feed_at (url : string) : Feed :=
  {| feed_id := "F1"; feed_name := "Feed one"; feed_creator := "alice";
     feed_inactive := false; feed_kind := "markdown_recursive"; feed_url := url;
     feed_notify := true; feed_origin := None |}.

Definition ex_feed : Feed := ex_feed_at "https://reddit.com/r/x/p1".

Definition ex_post (body : string) : Post :=
  {| post_title := "A"; post_selftext := body; post_author := Some "u1";
     post_created_utc := 1704067200 |}.

Definition ex_doc (id body : string) : Doc :=
  {| doc_id := id; doc_feed := "F1"; doc_author := Some "u1"; doc_body := body;
     doc_body_html := body; doc_url := Some "https://reddit.com/r/x/p1" |}.

Definition ex_api (docs : list Doc) (create : string + Result) (post : Post) : Api :=
  {| count_feeds := inr 0%Z;
     get_feeds_page := fun _ _ => inr [];
     get_feed_documents := fun _ => inr docs;
     submission := fun _ => inr post;
     update_feed_document := fun _ _ => inr accepted;
     create_feed_document := fun _ => create;
     send_notification := fun _ => inr {| res_typename := "Notification"; res_message := None |} |}.

Definition rejected : Result :=
  {| res_typename := "ValidationError"; res_message := Some "invalid document" |}.

(** ** Helpers of the proofs and further example inputs *)

Definition origin_error_log (feed : Feed) (hostname : string) : string :=
  "ERROR: Could not determine origin for feed " ++ feed_id feed
  ++ " hostname " ++ dquote ++ hostname ++ dquote.

Definition url_error_log (feed : Feed) : string :=
  "ERROR: Feed " ++ feed_id feed ++ " has invalid URL " ++ dquote
  ++ feed_url feed ++ dquote.

Definition evs_of {A} (x : Feed * list Event * Res A) : list Event := snd (fst x).

Definition fetch_logs_pre (u : string) : list Event :=
  [ELog "Reaching out to Reddit API... "; ECall (CSubmission u); ELog "Fetched post data."].

Definition of_feed (feed : Feed) (x : Doc) : bool := String.eqb (doc_feed x) (feed_id feed).

Definition marker_filler (x : ascii) : bool := negb (is_word x) && negb (Ascii.eqb x "]"%char).

Definition ex_p1 : string := "https://reddit.com/r/x/p1".
Definition ex_p2 : string := "https://reddit.com/r/x/p2".
Definition ex_marker_body : string := "hello [next](https://reddit.com/r/x/p2)".

Definition ex_feeds_api : Api :=
  {| count_feeds := inr 45%Z;
     get_feeds_page := fun i _ =>
       if (i =? 20)%Z then inl "batch failed"
       else inr [ex_feed; set_origin ex_feed None];
     get_feed_documents := fun _ => inr [];
     submission := fun _ => inl (PrawFetchError "unused");
     update_feed_document := fun _ _ => inr accepted;
     create_feed_document := fun _ => inr accepted;
     send_notification := fun _ => inr accepted |}.

(** A session whose count query fails, with the given answers to the
    document query and to the Reddit fetch. *)
Definition ex_failing_api (docs : string + list Doc) (post : PrawError + Post) : Api :=
  {| count_feeds := inl "session expired";
     get_feeds_page := fun _ _ => inr [];
     get_feed_documents := fun _ => docs;
     submission := fun _ => post;
     update_feed_document := fun _ _ => inr accepted;
     create_feed_document := fun _ => inr accepted;
     send_notification := fun _ => inr accepted |}.

(** A post whose author account was deleted. *)
Definition ex_orphan_post : Post :=
  {| post_title := "A"; post_selftext := "hello"; post_author := None;
     post_created_utc := 1704067200 |}.

(** The message of PRAW's [InvalidURL] for a subreddit link. *)
Definition ex_invalid_url_msg : string :=
  "Invalid URL (subreddit, not submission): https://reddit.com/r/x/p1".

(** A netloc with no userinfo, port, bracketed host or zone. *)
Definition plain_netloc (n : string) : bool :=
  negb (has_char "@"%char n || has_char ":"%char n || has_char "["%char n
        || has_char "]"%char n || has_char "%"%char n).

(** * Proofs *)

(** ** The monad *)

Lemma bind_cont {A B} (m : M A) (k : A -> M B) f f1 e1 a :
  m f = (f1, e1, Cont a) ->
  bind m k f = let '(f2, e2, r2) := k a f1 in (f2, (e1 ++ e2)%list, r2).
Proof. intros H; unfold bind; rewrite H; reflexivity. Qed.

Lemma bind_stop {A B} (m : M A) (k : A -> M B) f f1 e1 :
  m f = (f1, e1, Stop) -> bind m k f = (f1, e1, Stop).
Proof. intros H; unfold bind; rewrite H; reflexivity. Qed.

Lemma bind_raise {A B} (m : M A) (k : A -> M B) f f1 e1 x :
  m f = (f1, e1, Raise x) -> bind m k f = (f1, e1, Raise x).
Proof. intros H; unfold bind; rewrite H; reflexivity. Qed.

Lemma writes_app e1 e2 : writes (e1 ++ e2) = (writes e1 ++ writes e2)%list.
Proof. unfold writes; apply flat_map_app. Qed.

Lemma calls_app e1 e2 : calls (e1 ++ e2) = (calls e1 ++ calls e2)%list.
Proof. unfold calls; apply flat_map_app. Qed.

Lemma logs_app e1 e2 : logs (e1 ++ e2) = (logs e1 ++ logs e2)%list.
Proof. unfold logs; apply flat_map_app. Qed.


(** ** Origin resolution *)

Lemma py_split_length c s : (1 <= length (py_split c s))%nat.
Proof.
  induction s as [|d s IH]; simpl; [lia|].
  destruct (Ascii.eqb d c); simpl; [lia|].
  destruct (py_split c s); simpl in *; lia.
Qed.

Lemma py_split_no_sep c s : has_char c s = false -> py_split c s = [s].
Proof.
  unfold has_char; induction s as [|d s IH]; simpl; [reflexivity|].
  intros H; apply orb_false_iff in H as [H1 H2].
  rewrite H1, (IH H2); reflexivity.
Qed.

Lemma resolve_origin_eq feed :
  resolve_origin feed =
  match url_hostname (feed_url feed) with
  | HostErr e => (feed, [], Raise ("ValueError: " ++ e))
  | HostNone => (feed, [ELog (url_error_log feed)], Stop)
  | HostSome h =>
      if list_string_eqb (last_two (py_split "."%char h)) ["reddit"; "com"]
      then (set_origin feed (Some "reddit"), [], Cont tt)
      else (feed, [ELog (origin_error_log feed h)], Stop)
  end.
Proof.
  unfold resolve_origin, bind, get_feed.
  destruct (url_hostname (feed_url feed)) as [e| |h]; try reflexivity.
  pose proof (py_split_length "."%char h) as Hl.
  destruct (length (py_split "." h) <? 1)%nat eqn:E.
  - apply Nat.ltb_lt in E; lia.
  - destruct (list_string_eqb _ _); reflexivity.
Qed.

Lemma fetch_next_document_kind api feed :
  feed_kind feed <> markdown_recursive ->
  fetch_next_document api feed =
  (feed, [ELog ("ERROR: Invalid feed kind " ++ dquote ++ feed_kind feed ++ dquote
               ++ " in feed " ++ feed_id feed ++ "!")], Stop).
Proof.
  intros Hk; unfold fetch_next_document, bind at 1, get_feed.
  apply String.eqb_neq in Hk; rewrite Hk; reflexivity.
Qed.

Lemma fetch_next_document_origin api feed :
  feed_kind feed = markdown_recursive ->
  fetch_next_document api feed =
  let '(f1, e1, r1) := resolve_origin feed in
  match r1 with
  | Cont _ => let '(f2, e2, r2) := sync_feed api f1 f1 in (f2, (e1 ++ e2)%list, r2)
  | Stop => (f1, e1, Stop)
  | Raise x => (f1, e1, Raise x)
  end.
Proof.
  intros Hk; unfold fetch_next_document, bind, get_feed.
  rewrite Hk, String.eqb_refl; cbv [negb]; cbv iota beta.
  destruct (resolve_origin feed) as [[f1 e1] [[]| |x]]; try reflexivity.
  destruct (sync_feed api f1 f1) as [[f2 e2] r2]; reflexivity.
Qed.

(** ** Stages of [sync_feed] *)

Lemma process_feed_calls api feed :
  calls (process_feed api feed) = calls (evs_of (fetch_next_document api feed)).
Proof.
  unfold process_feed, evs_of.
  destruct (fetch_next_document api feed) as [[f e] r]; simpl.
  rewrite calls_app; destruct r; simpl; apply app_nil_r.
Qed.

Lemma writes_calls evs : writes evs = filter is_write (calls evs).
Proof.
  induction evs as [|[c| |] evs IH]; simpl; try assumption; [reflexivity|].
  destruct (is_write c); simpl; rewrite IH; reflexivity.
Qed.

Lemma process_feed_writes api feed :
  writes (process_feed api feed) = writes (evs_of (fetch_next_document api feed)).
Proof. rewrite !writes_calls, process_feed_calls; reflexivity. Qed.

Lemma navigate_eq api feed f :
  feed_kind feed = markdown_recursive ->
  navigate api feed f =
  let q := ECall (CGetFeedDocuments (doc_query feed)) in
  match get_feed_documents api (doc_query feed) with
  | inl e => (f, [q; ELog ("SKRUNK: " ++ e)], Stop)
  | inr [] => (f, [q], Cont (feed_url feed, None, None))
  | inr (doc :: _) =>
      match doc_url doc with
      | None => (f, [q], Raise "KeyError: 'url'")
      | Some u =>
          match re_search_next (doc_body doc) with
          | Some g => (f, [q], Cont (g, None, None))
          | None => (f, [q], Cont (u, Some (doc_body doc), Some (doc_id doc)))
          end
      end
  end.
Proof.
  intros Hk; unfold navigate, bind, call, log, stop, ret, raise.
  rewrite Hk, String.eqb_refl.
  destruct (get_feed_documents api (doc_query feed)) as [e|[|doc rest]]; try reflexivity.
  destruct (doc_url doc); [|reflexivity].
  destruct (re_search_next (doc_body doc)); reflexivity.
Qed.

Lemma fetch_post_eq api feed u f :
  feed_origin feed = Some "reddit" ->
  fetch_post api feed u f =
  match submission api u with
  | inl (PrawInvalidURL m) =>
      (f, [ELog "Reaching out to Reddit API... "; ECall (CSubmission u)],
       Raise ("InvalidURL: " ++ m))
  | inl (PrawFetchError m) => (f, fetch_logs_pre u, Raise ("PrawcoreException: " ++ m))
  | inr post =>
      match post_author post with
      | None => (f, fetch_logs_pre u,
                 Raise "AttributeError: 'NoneType' object has no attribute 'name'")
      | Some a => (f, fetch_logs_pre u, Cont (post_document feed u post a))
      end
  end.
Proof.
  intros Ho; unfold fetch_post, bind, call, log, ret, raise.
  rewrite Ho; simpl String.eqb; cbv iota beta.
  destruct (submission api u) as [[m|m]|post]; [reflexivity|reflexivity|].
  destruct (post_author post); reflexivity.
Qed.

Lemma create_call_calls api feed d f :
  calls (evs_of (create_call api feed d f)) =
  CCreateFeedDocument d
  :: match create_feed_document api d with
     | inr _ => if feed_notify feed then [CSendNotification (notification feed)] else []
     | inl _ => []
     end.
Proof.
  unfold create_call, bind, call, ret, evs_of.
  destruct (create_feed_document api d); [reflexivity|].
  destruct (feed_notify feed); [|reflexivity].
  destruct (send_notification api (notification feed)); reflexivity.
Qed.

Lemma commit_result_calls feed di r f :
  calls (evs_of (commit_result feed di r f)) = [].
Proof.
  destruct r as [e|r]; [reflexivity|]; unfold commit_result.
  destruct (negb _); [destruct (res_message r)|]; reflexivity.
Qed.

Lemma commit_calls api feed di db d f :
  calls (evs_of (commit api feed di db d f)) =
  match di with
  | Some id =>
      if truthy di then
        if body_eqb db (nd_body d) then []
        else [CUpdateFeedDocument id (nd_body d)]
      else calls (evs_of (create_call api feed d f))
  | None => calls (evs_of (create_call api feed d f))
  end.
Proof.
  unfold commit, bind.
  destruct (commit_call api feed di db d f) as [[f1 e1] r1] eqn:E.
  assert (Hcalls : calls e1 =
    match di with
    | Some id =>
        if truthy di then
          if body_eqb db (nd_body d) then []
          else [CUpdateFeedDocument id (nd_body d)]
        else calls (evs_of (create_call api feed d f))
    | None => calls (evs_of (create_call api feed d f))
    end).
  { unfold commit_call in E.
    destruct di as [id|].
    - destruct (truthy (Some id)).
      + destruct (body_eqb db (nd_body d)).
        * unfold stop in E; inversion E; reflexivity.
        * unfold call in E; inversion E; reflexivity.
      + unfold evs_of; rewrite E; reflexivity.
    - unfold evs_of; rewrite E; reflexivity. }
  destruct r1 as [r| |x]; unfold evs_of; simpl; try exact Hcalls.
  pose proof (commit_result_calls feed di r f1) as Hc; unfold evs_of in Hc.
  destruct (commit_result feed di r f1) as [[f2 e2] r2].
  simpl in *. rewrite calls_app, Hc, app_nil_r. exact Hcalls.
Qed.

Lemma sync_feed_eq api feed f :
  sync_feed api feed f =
  let '(f1, e1, r1) := navigate api feed f in
  match r1 with
  | Cont (nu, db, di) =>
      let '(f2, e2, r2) := fetch_post api feed nu f1 in
      match r2 with
      | Cont doc =>
          let '(f3, e3, r3) := commit api feed di db doc f2 in
          (f3, (e1 ++ e2 ++ e3)%list, r3)
      | Stop => (f2, (e1 ++ e2)%list, Stop)
      | Raise x => (f2, (e1 ++ e2)%list, Raise x)
      end
  | Stop => (f1, e1, Stop)
  | Raise x => (f1, e1, Raise x)
  end.
Proof.
  unfold sync_feed, bind.
  destruct (navigate api feed f) as [[f1 e1] [[[nu db] di]| |x]]; try reflexivity.
  destruct (fetch_post api feed nu f1) as [[f2 e2] [doc| |x]]; try reflexivity.
  destruct (commit api feed di db doc f2) as [[f3 e3] r3].
  rewrite app_assoc; reflexivity.
Qed.

(** Only the commit stage writes: a pipeline that resolves no origin, or
    whose navigation or fetch does not fall through, issues no write. *)
Lemma sync_feed_calls_prefix api feed f :
  feed_kind feed = markdown_recursive ->
  feed_origin feed = Some "reddit" ->
  calls (evs_of (sync_feed api feed f)) =
  CGetFeedDocuments (doc_query feed) ::
  match navigate api feed f with
  | (_, _, Cont (nu, db, di)) =>
      CSubmission nu ::
      match submission api nu with
      | inr post =>
          match post_author post with
          | Some a => calls (evs_of (commit api feed di db (post_document feed nu post a) f))
          | None => []
          end
      | inl _ => []
      end
  | _ => []
  end.
Proof.
  intros Hk Ho.
  rewrite sync_feed_eq, (navigate_eq _ _ _ Hk).
  destruct (get_feed_documents api (doc_query feed)) as [e|[|doc rest]];
    [reflexivity| |].
  - cbv iota beta zeta. rewrite (fetch_post_eq _ _ _ _ Ho).
    destruct (submission api (feed_url feed)) as [[e|e]|post]; [reflexivity|reflexivity|].
    destruct (post_author post) as [a|]; [|reflexivity].
    unfold evs_of; destruct (commit _ _ _ _ _ _) as [[f3 e3] r3]; simpl.
    rewrite ?calls_app; reflexivity.
  - destruct (doc_url doc) as [u|]; [|reflexivity].
    destruct (re_search_next (doc_body doc)) as [g|];
      cbv iota beta zeta; rewrite (fetch_post_eq _ _ _ _ Ho).
    + destruct (submission api g) as [[e|e]|post]; [reflexivity|reflexivity|].
      destruct (post_author post) as [a|]; [|reflexivity].
      unfold evs_of; destruct (commit _ _ _ _ _ _) as [[f3 e3] r3]; simpl.
      rewrite ?calls_app; reflexivity.
    + destruct (submission api u) as [[e|e]|post]; [reflexivity|reflexivity|].
      destruct (post_author post) as [a|]; [|reflexivity].
      unfold evs_of; destruct (commit _ _ _ _ _ _) as [[f3 e3] r3]; simpl.
      rewrite ?calls_app; reflexivity.
Qed.

Lemma doc_query_set_origin feed o : doc_query (set_origin feed o) = doc_query feed.
Proof. reflexivity. Qed.

Lemma process_feed_calls_eq api feed :
  calls (process_feed api feed) =
  if String.eqb (feed_kind feed) markdown_recursive && reddit_host feed
  then calls (evs_of (sync_feed api (set_origin feed (Some "reddit"))
                                   (set_origin feed (Some "reddit"))))
  else [].
Proof.
  rewrite process_feed_calls; unfold reddit_host.
  destruct (String.eqb_spec (feed_kind feed) markdown_recursive) as [Hk|Hk].
  - rewrite (fetch_next_document_origin _ _ Hk), resolve_origin_eq; simpl andb.
    destruct (url_hostname (feed_url feed)) as [e| |h]; try reflexivity.
    destruct (list_string_eqb _ _); [|reflexivity].
    unfold evs_of; destruct (sync_feed _ _ _) as [[f2 e2] r2]; reflexivity.
  - rewrite (fetch_next_document_kind _ _ Hk); reflexivity.
Qed.

(** The writes of a pass over a feed whose newest document carries no
    successor marker. *)
Lemma update_mode_writes api feed d rest u post :
  get_feed_documents api (doc_query feed) = inr (d :: rest) ->
  doc_url d = Some u -> re_search_next (doc_body d) = None -> doc_id d <> "" ->
  submission api u = inr post ->
  writes (process_feed api feed) =
  if String.eqb (feed_kind feed) markdown_recursive && reddit_host feed
     && match post_author post with Some _ => true | None => false end
     && negb (String.eqb (doc_body d) (post_selftext post))
  then [CUpdateFeedDocument (doc_id d) (post_selftext post)] else [].
Proof.
  intros Hq Hu Hm Hid Hs.
  rewrite writes_calls, process_feed_calls_eq.
  destruct (String.eqb_spec (feed_kind feed) markdown_recursive) as [Hk|Hk];
    [|reflexivity].
  destruct (reddit_host feed); [|reflexivity]; simpl andb.
  rewrite sync_feed_calls_prefix by (simpl; assumption || reflexivity).
  rewrite (navigate_eq _ (set_origin feed (Some "reddit")) _ Hk).
  rewrite doc_query_set_origin, Hq, Hu, Hm.
  cbv beta iota zeta. rewrite Hs.
  destruct (post_author post) as [a|]; [|reflexivity].
  rewrite commit_calls.
  assert (Ht : truthy (Some (doc_id d)) = true).
  { unfold truthy; apply String.eqb_neq in Hid; rewrite Hid; reflexivity. }
  rewrite Ht; unfold body_eqb; simpl nd_body.
  destruct (String.eqb (doc_body d) (post_selftext post)); reflexivity.
Qed.

(** ** The reference store *)

Lemma store_query s reddit feed d rest :
  filter (of_feed feed) s = d :: rest ->
  get_feed_documents (store_api s reddit) (doc_query feed) = inr [d].
Proof. intros H; simpl; unfold of_feed in H; rewrite H; reflexivity. Qed.

Lemma filter_map_same {A} (p : A -> bool) (g : A -> A) l :
  (forall x, p (g x) = p x) -> filter p (map g l) = map g (filter p l).
Proof.
  intros Hg; induction l as [|x l IH]; simpl; [reflexivity|].
  rewrite Hg; destruct (p x); simpl; rewrite IH; reflexivity.
Qed.

Lemma store_apply_nil s evs : writes evs = [] -> store_apply s evs = s.
Proof. intros H; unfold store_apply; rewrite H; reflexivity. Qed.

Lemma store_apply_update s evs i b :
  writes evs = [CUpdateFeedDocument i b] ->
  store_apply s evs = map (fun x => if String.eqb (doc_id x) i then set_body x b else x) s.
Proof. intros H; unfold store_apply; rewrite H; reflexivity. Qed.

(** ** C3: update mode is idempotent *)

(** C3.  A pass over a feed in update mode (its newest document carries no
    successor marker and has a non-empty id) whose re-fetched body equals
    the stored body issues no write at all: no update, no creation, no
    notification.  Against the reference store, two passes in a row with
    the same upstream post, both in update mode, leave the second pass with
    no write. *)
Theorem update_mode_idempotent (api : Api) (feed : Feed) (d : Doc) rest u post :
  get_feed_documents api (doc_query feed) = inr (d :: rest) ->
  doc_url d = Some u -> re_search_next (doc_body d) = None -> doc_id d <> "" ->
  submission api u = inr post ->
  (post_selftext post = doc_body d -> writes (process_feed api feed) = []) /\
  (forall s : Store,
     filter (of_feed feed) s = d :: rest ->
     re_search_next (post_selftext post) = None ->
     writes (fst (sync_once (submission api) feed
                   (snd (sync_once (submission api) feed s)))) = []).
Proof.
  intros Hq Hu Hm Hid Hs; split.
  - intros Hb; rewrite (update_mode_writes _ _ _ _ _ _ Hq Hu Hm Hid Hs), Hb,
      String.eqb_refl, !andb_false_r; reflexivity.
  - intros s Hf Hm'; unfold sync_once; simpl.
    set (reddit := submission api).
    assert (Hs' : submission (store_api s reddit) u = inr post) by exact Hs.
    pose proof (update_mode_writes _ _ _ [] _ _ (store_query s reddit feed d rest Hf)
                  Hu Hm Hid Hs') as W1.
    destruct (String.eqb (feed_kind feed) markdown_recursive && reddit_host feed
              && match post_author post with Some _ => true | None => false end
              && negb (String.eqb (doc_body d) (post_selftext post))) eqn:C.
    + rewrite (store_apply_update _ _ _ _ W1).
      set (g := fun x => if String.eqb (doc_id x) (doc_id d)
                         then set_body x (post_selftext post) else x).
      assert (Hf2 : filter (of_feed feed) (map g s)
                    = set_body d (post_selftext post) :: map g rest).
      { rewrite filter_map_same, Hf.
        - simpl; unfold g at 1; rewrite String.eqb_refl; reflexivity.
        - intros x; unfold g, of_feed; destruct (String.eqb (doc_id x) (doc_id d)); reflexivity. }
      assert (Hs2 : submission (store_api (map g s) reddit) u = inr post) by exact Hs.
      rewrite (update_mode_writes _ _ (set_body d (post_selftext post)) [] _ _
                 (store_query _ reddit feed _ _ Hf2) Hu Hm' Hid Hs2).
      simpl doc_body; rewrite String.eqb_refl, !andb_false_r; reflexivity.
    + rewrite (store_apply_nil _ _ W1), W1; reflexivity.
Qed.

(** ** The pipeline past navigation *)

Lemma navigate_set_origin api feed o f :
  navigate api (set_origin feed o) f = navigate api feed f.
Proof. reflexivity. Qed.

Lemma pipeline_calls api feed nu db di post a :
  feed_kind feed = markdown_recursive -> reddit_host feed = true ->
  (forall f, navigate api feed f
             = (f, [ECall (CGetFeedDocuments (doc_query feed))], Cont (nu, db, di))) ->
  submission api nu = inr post -> post_author post = Some a ->
  calls (process_feed api feed) =
  CGetFeedDocuments (doc_query feed) :: CSubmission nu
  :: calls (evs_of (commit api (set_origin feed (Some "reddit")) di db
                      (post_document feed nu post a) (set_origin feed (Some "reddit")))).
Proof.
  intros Hk Hr Hn Hs Ha.
  rewrite process_feed_calls_eq, Hk, String.eqb_refl, Hr; simpl andb.
  rewrite sync_feed_calls_prefix by (simpl; assumption || reflexivity).
  rewrite navigate_set_origin, Hn, Hs, Ha; reflexivity.
Qed.

Lemma navigate_marker api feed d rest u g f :
  feed_kind feed = markdown_recursive ->
  get_feed_documents api (doc_query feed) = inr (d :: rest) ->
  doc_url d = Some u -> re_search_next (doc_body d) = Some g ->
  navigate api feed f = (f, [ECall (CGetFeedDocuments (doc_query feed))], Cont (g, None, None)).
Proof. intros Hk Hq Hu Hm; rewrite (navigate_eq _ _ _ Hk), Hq, Hu, Hm; reflexivity. Qed.

Lemma navigate_no_marker api feed d rest u f :
  feed_kind feed = markdown_recursive ->
  get_feed_documents api (doc_query feed) = inr (d :: rest) ->
  doc_url d = Some u -> re_search_next (doc_body d) = None ->
  navigate api feed f = (f, [ECall (CGetFeedDocuments (doc_query feed))],
                         Cont (u, Some (doc_body d), Some (doc_id d))).
Proof. intros Hk Hq Hu Hm; rewrite (navigate_eq _ _ _ Hk), Hq, Hu, Hm; reflexivity. Qed.

Lemma navigate_no_docs api feed f :
  feed_kind feed = markdown_recursive ->
  get_feed_documents api (doc_query feed) = inr [] ->
  navigate api feed f = (f, [ECall (CGetFeedDocuments (doc_query feed))],
                         Cont (feed_url feed, None, None)).
Proof. intros Hk Hq; rewrite (navigate_eq _ _ _ Hk), Hq; reflexivity. Qed.

Lemma created_calls evs :
  created evs = flat_map (fun c => match c with CCreateFeedDocument d => [d] | _ => [] end) (calls evs).
Proof. reflexivity. Qed.

(** The create branch issues exactly one creation and no update. *)
Lemma commit_create_calls api feed di db d f :
  truthy di = false ->
  calls (evs_of (commit api feed di db d f)) =
  CCreateFeedDocument d
  :: match create_feed_document api d with
     | inr _ => if feed_notify feed then [CSendNotification (notification feed)] else []
     | inl _ => []
     end.
Proof.
  intros Ht; rewrite commit_calls, <- (create_call_calls api feed d f).
  destruct di as [id|]; [rewrite Ht|]; reflexivity.
Qed.

(** ** C4: a successor marker wins over the update path *)

(** C4.  When the newest stored document's body contains a successor
    marker, navigation yields the marker's captured target with no
    existing-document id (the create path); the pass never issues an
    update, and once the origin is resolved it fetches the target. *)
Theorem marker_takes_create_path (api : Api) (feed : Feed) (d : Doc) rest u g :
  feed_kind feed = markdown_recursive ->
  get_feed_documents api (doc_query feed) = inr (d :: rest) ->
  doc_url d = Some u -> re_search_next (doc_body d) = Some g ->
  (forall f, navigate api feed f
             = (f, [ECall (CGetFeedDocuments (doc_query feed))], Cont (g, None, None))) /\
  updated (process_feed api feed) = [] /\
  (reddit_host feed = true -> In (CSubmission g) (calls (process_feed api feed))).
Proof.
  intros Hk Hq Hu Hm.
  pose proof (fun f => navigate_marker api feed d rest u g f Hk Hq Hu Hm) as Hn.
  split; [exact Hn|].
  unfold updated; rewrite process_feed_calls_eq, Hk, String.eqb_refl; simpl andb.
  destruct (reddit_host feed) eqn:Hr; [|split; [reflexivity|discriminate]].
  rewrite sync_feed_calls_prefix by (simpl; assumption || reflexivity).
  rewrite navigate_set_origin, Hn.
  split; [|intros _; simpl; right; left; reflexivity].
  destruct (submission api g) as [[e|e]|post]; [reflexivity|reflexivity|].
  destruct (post_author post) as [a|]; [|reflexivity].
  rewrite commit_create_calls by reflexivity.
  destruct (create_feed_document _ _); [reflexivity|].
  destruct (feed_notify _); reflexivity.
Qed.

(** ** C5: a feed without documents *)

(** C5 (amended).  For a feed of the recognized kind with no stored
    document: when its URL resolves to the Reddit origin and the post loads
    with its author, the pass fetches the feed's configured URL and issues
    exactly one creation, carrying the feed id, the fetched author, the
    formatted posting time, the fetched body and title, and that URL; it
    issues no update.  When its origin does not resolve, the pass creates
    nothing and writes nothing. *)
Theorem no_docs_creates_from_feed_url (api : Api) (feed : Feed) :
  feed_kind feed = markdown_recursive ->
  get_feed_documents api (doc_query feed) = inr [] ->
  (forall post a, reddit_host feed = true ->
     submission api (feed_url feed) = inr post -> post_author post = Some a ->
     In (CSubmission (feed_url feed)) (calls (process_feed api feed)) /\
     created (process_feed api feed) = [post_document feed (feed_url feed) post a] /\
     updated (process_feed api feed) = []) /\
  (reddit_host feed = false ->
     created (process_feed api feed) = [] /\ writes (process_feed api feed) = []).
Proof.
  intros Hk Hq; split.
  - intros post a Hr Hs Ha.
    pose proof (fun f => navigate_no_docs api feed f Hk Hq) as Hn.
    unfold created, updated.
    rewrite (pipeline_calls _ _ _ _ _ _ _ Hk Hr Hn Hs Ha).
    rewrite commit_create_calls by reflexivity.
    split; [simpl; right; left; reflexivity|].
    destruct (create_feed_document _ _); [split; reflexivity|].
    destruct (feed_notify _); split; reflexivity.
  - intros Hr; unfold created; rewrite writes_calls, process_feed_calls_eq, Hr, andb_false_r.
    split; reflexivity.
Qed.

(** ** C9: the ['url'] key of the newest document *)

(** C9.  Navigation reads the ['url'] key of the newest document, which the
    [Document] record does not declare: when the store's record lacks it,
    navigation raises [KeyError] and the pass issues no write; when the key
    is present, navigation falls through with a result. *)
Theorem missing_url_raises (api : Api) (feed : Feed) (d : Doc) rest :
  feed_kind feed = markdown_recursive ->
  get_feed_documents api (doc_query feed) = inr (d :: rest) ->
  (doc_url d = None ->
     (forall f, navigate api feed f
                = (f, [ECall (CGetFeedDocuments (doc_query feed))], Raise "KeyError: 'url'"))
     /\ writes (process_feed api feed) = []) /\
  (forall u, doc_url d = Some u ->
     forall f, exists v, navigate api feed f
                         = (f, [ECall (CGetFeedDocuments (doc_query feed))], Cont v)).
Proof.
  intros Hk Hq; split.
  - intros Hu.
    assert (Hn : forall f, navigate api feed f
                 = (f, [ECall (CGetFeedDocuments (doc_query feed))], Raise "KeyError: 'url'")).
    { intros f; rewrite (navigate_eq _ _ _ Hk), Hq, Hu; reflexivity. }
    split; [exact Hn|].
    rewrite writes_calls, process_feed_calls_eq, Hk, String.eqb_refl; simpl andb.
    destruct (reddit_host feed); [|reflexivity].
    rewrite sync_feed_calls_prefix by (simpl; assumption || reflexivity).
    rewrite navigate_set_origin, Hn; reflexivity.
  - intros u Hu f.
    destruct (re_search_next (doc_body d)) as [g|] eqn:Hm.
    + exists (g, None, None); exact (navigate_marker _ _ _ _ _ _ _ Hk Hq Hu Hm).
    + exists (u, Some (doc_body d), Some (doc_id d));
        exact (navigate_no_marker _ _ _ _ _ _ Hk Hq Hu Hm).
Qed.

(** ** C10: an empty document id *)

(** C10.  [if document_id:] tests truthiness: when the newest document has
    no successor marker but its id is the empty string, the pass creates a
    new document from the document's own URL instead of updating it. *)
Theorem empty_id_takes_create_path (api : Api) (feed : Feed) (d : Doc) rest u post a :
  feed_kind feed = markdown_recursive -> reddit_host feed = true ->
  get_feed_documents api (doc_query feed) = inr (d :: rest) ->
  doc_url d = Some u -> re_search_next (doc_body d) = None -> doc_id d = "" ->
  submission api u = inr post -> post_author post = Some a ->
  created (process_feed api feed) = [post_document feed u post a] /\
  updated (process_feed api feed) = [].
Proof.
  intros Hk Hr Hq Hu Hm Hid Hs Ha.
  pose proof (fun f => navigate_no_marker api feed d rest u f Hk Hq Hu Hm) as Hn.
  unfold created, updated.
  rewrite (pipeline_calls _ _ _ _ _ _ _ Hk Hr Hn Hs Ha).
  rewrite commit_create_calls by (rewrite Hid; reflexivity).
  destruct (create_feed_document _ _); [split; reflexivity|].
  destruct (feed_notify _); split; reflexivity.
Qed.

(** ** C6 and C8: kind check and origin resolution *)

Lemma list_string_eqb_eq l1 l2 : list_string_eqb l1 l2 = true <-> l1 = l2.
Proof.
  revert l2; induction l1 as [|a l1 IH]; intros [|b l2]; simpl;
    try (split; [discriminate|intros H; discriminate H]); [tauto|].
  rewrite andb_true_iff, String.eqb_eq, IH; split.
  - intros [-> ->]; reflexivity.
  - intros H; injection H; tauto.
Qed.

Lemma list_string_eqb_neq l1 l2 : list_string_eqb l1 l2 = false <-> l1 <> l2.
Proof.
  rewrite <- list_string_eqb_eq; destruct (list_string_eqb l1 l2); split;
    congruence.
Qed.

(** C6.  A feed whose kind is not [markdown_recursive], whose URL has no
    hostname (none parsed, or [urlsplit] raising), or whose hostname does
    not end in the labels [reddit] and [com], gets a pass that issues no
    call at all (hence no creation, update or notification) and logs one
    line. *)
Theorem unsupported_feed_no_mutation (api : Api) (feed : Feed) :
  feed_kind feed <> markdown_recursive
  \/ (forall h, url_hostname (feed_url feed) <> HostSome h)
  \/ (exists h, url_hostname (feed_url feed) = HostSome h
                /\ last_two (py_split "."%char h) <> ["reddit"; "com"]) ->
  calls (process_feed api feed) = [] /\ exists m, logs (process_feed api feed) = [m].
Proof.
  intros H; unfold process_feed.
  destruct (String.eqb_spec (feed_kind feed) markdown_recursive) as [Hk|Hk].
  - rewrite (fetch_next_document_origin _ _ Hk), resolve_origin_eq.
    destruct (url_hostname (feed_url feed)) as [e| |h] eqn:Eh.
    + split; [reflexivity|eexists; reflexivity].
    + split; [reflexivity|eexists; reflexivity].
    + destruct H as [H|[H|[h' [Eh' Hl]]]]; [contradiction|destruct (H h eq_refl)|].
      injection Eh' as <-.
      apply list_string_eqb_neq in Hl; rewrite Hl.
      split; [reflexivity|eexists; reflexivity].
  - rewrite (fetch_next_document_kind _ _ Hk).
    split; [reflexivity|eexists; reflexivity].
Qed.

(** C8.  Origin resolution from the feed URL: with no hostname it fails
    with a log line, leaving the feed as it was; when [urlsplit] raises,
    the exception escapes; when the hostname's last two dot-separated
    labels are not exactly [reddit] and [com] it fails with a log line;
    otherwise it sets the feed's origin to [reddit].  A hostname without a
    dot never resolves. *)
Theorem origin_resolution (feed : Feed) :
  (url_hostname (feed_url feed) = HostNone ->
     resolve_origin feed = (feed, [ELog (url_error_log feed)], Stop)) /\
  (forall e, url_hostname (feed_url feed) = HostErr e ->
     resolve_origin feed = (feed, [], Raise ("ValueError: " ++ e))) /\
  (forall h, url_hostname (feed_url feed) = HostSome h ->
     last_two (py_split "."%char h) <> ["reddit"; "com"] ->
     resolve_origin feed = (feed, [ELog (origin_error_log feed h)], Stop)) /\
  (forall h, url_hostname (feed_url feed) = HostSome h ->
     last_two (py_split "."%char h) = ["reddit"; "com"] ->
     resolve_origin feed = (set_origin feed (Some "reddit"), [], Cont tt)) /\
  (forall h, url_hostname (feed_url feed) = HostSome h ->
     has_char "."%char h = false ->
     resolve_origin feed = (feed, [ELog (origin_error_log feed h)], Stop)).
Proof.
  assert (Hne : forall h, url_hostname (feed_url feed) = HostSome h ->
     last_two (py_split "."%char h) <> ["reddit"; "com"] ->
     resolve_origin feed = (feed, [ELog (origin_error_log feed h)], Stop)).
  { intros h Eh Hl; rewrite resolve_origin_eq, Eh.
    apply list_string_eqb_neq in Hl; rewrite Hl; reflexivity. }
  repeat split.
  - intros Eh; rewrite resolve_origin_eq, Eh; reflexivity.
  - intros e Eh; rewrite resolve_origin_eq, Eh; reflexivity.
  - exact Hne.
  - intros h Eh Hl; rewrite resolve_origin_eq, Eh.
    apply list_string_eqb_eq in Hl; rewrite Hl; reflexivity.
  - intros h Eh Hd; apply (Hne h Eh).
    rewrite (py_split_no_sep _ _ Hd); discriminate.
Qed.

(** ** C7: feed enumeration *)

Lemma py_range_in t i :
  In i (py_range 0 t 20) <-> (0 <= i < t /\ i mod 20 = 0)%Z.
Proof.
  unfold py_range, range_len; rewrite in_map_iff.
  pose proof (Z.div_mod (t - 0 + 20 - 1) 20 ltac:(lia)) as Hd.
  pose proof (Z.mod_pos_bound (t - 0 + 20 - 1) 20 ltac:(lia)) as Hb.
  set (q := ((t - 0 + 20 - 1) / 20)%Z) in *.
  set (r := ((t - 0 + 20 - 1) mod 20)%Z) in *.
  split.
  - intros [k [<- Hk]]; apply in_seq in Hk.
    destruct (0 <? t)%Z eqn:Ht; [apply Z.ltb_lt in Ht|simpl in Hk; lia].
    rewrite Z.add_0_l, Z.mul_comm, Z.mod_mul by lia.
    split; [|reflexivity]. lia.
  - intros [[H0 Hi] Hm].
    pose proof (Z.div_mod i 20 ltac:(lia)) as Hi'.
    exists (Z.to_nat (i / 20)); split.
    + rewrite Z2Nat.id by (apply Z.div_pos; lia). lia.
    + apply in_seq.
      destruct (0 <? t)%Z eqn:Ht; [|apply Z.ltb_ge in Ht; lia].
      split; [lia|]. apply Z2Nat.inj_lt; [apply Z.div_pos; lia|lia|lia].
Qed.

Lemma calls_flat_map {A} (f : A -> list Event) l :
  calls (flat_map f l) = flat_map (fun x => calls (f x)) l.
Proof.
  induction l as [|x l IH]; simpl; [reflexivity|]. rewrite calls_app, IH; reflexivity.
Qed.

Lemma yielded_app e1 e2 : yielded (e1 ++ e2) = (yielded e1 ++ yielded e2)%list.
Proof. unfold yielded; apply flat_map_app. Qed.

Lemma yielded_flat_map {A} (f : A -> list Event) l :
  yielded (flat_map f l) = flat_map (fun x => yielded (f x)) l.
Proof.
  induction l as [|x l IH]; simpl; [reflexivity|]. rewrite yielded_app, IH; reflexivity.
Qed.

Lemma yielded_map_EYield l : yielded (map EYield l) = l.
Proof. induction l as [|x l IH]; simpl; [reflexivity|]. rewrite IH; reflexivity. Qed.

Lemma calls_map_EYield l : calls (map EYield l) = [].
Proof. induction l as [|x l IH]; simpl; [reflexivity|]. exact IH. Qed.

Lemma get_feeds_batch_calls api i : calls (get_feeds_batch api i) = [CGetFeeds i 20].
Proof.
  unfold get_feeds_batch, feed_batch_size; destruct (get_feeds_page api i 20);
    simpl; [reflexivity|]. rewrite calls_map_EYield; reflexivity.
Qed.

Lemma get_feeds_batch_yielded api i :
  yielded (get_feeds_batch api i) =
  match get_feeds_page api i 20 with inl _ => [] | inr l => active_feeds l end.
Proof.
  unfold get_feeds_batch, feed_batch_size; destruct (get_feeds_page api i 20);
    simpl; [reflexivity|]. apply yielded_map_EYield.
Qed.

Lemma get_feeds_eq api :
  get_feeds api =
  ((match count_feeds api with
    | inl e => [ECall CCountFeeds; ELog ("SKRUNK: " ++ e)]
    | inr _ => [ECall CCountFeeds]
    end) ++ flat_map (get_feeds_batch api) (py_range 0 (feeds_total api) 20))%list.
Proof. unfold get_feeds, feeds_total; destruct (count_feeds api); reflexivity. Qed.

Lemma page_calls_get_feeds api :
  page_calls (get_feeds api) = map (fun i => (i, 20%Z)) (py_range 0 (feeds_total api) 20).
Proof.
  unfold page_calls; rewrite get_feeds_eq, calls_app, calls_flat_map.
  assert (Hpre : calls (match count_feeds api with
                        | inl e => [ECall CCountFeeds; ELog ("SKRUNK: " ++ e)]
                        | inr _ => [ECall CCountFeeds] end) = [CCountFeeds])
    by (destruct (count_feeds api); reflexivity).
  rewrite Hpre, (flat_map_ext _ _ (get_feeds_batch_calls api)).
  induction (py_range 0 (feeds_total api) 20) as [|i l IH]; [reflexivity|].
  simpl in *; rewrite IH; reflexivity.
Qed.

Lemma yielded_get_feeds api :
  yielded (get_feeds api) =
  flat_map (fun i => match get_feeds_page api i 20 with
                     | inl _ => [] | inr l => active_feeds l end)
           (py_range 0 (feeds_total api) 20).
Proof.
  rewrite get_feeds_eq, yielded_app, yielded_flat_map.
  assert (Hpre : yielded (match count_feeds api with
                          | inl e => [ECall CCountFeeds; ELog ("SKRUNK: " ++ e)]
                          | inr _ => [ECall CCountFeeds] end) = [])
    by (destruct (count_feeds api); reflexivity).
  rewrite Hpre; simpl.
  apply flat_map_ext; intros i; apply get_feeds_batch_yielded.
Qed.

(** C7.  [get_feeds] requests batches of 20 starting at exactly the
    multiples of 20 below the reported total (so every index below the
    total lies in one requested batch); it yields only active feeds, namely
    the active feeds of every batch whose request succeeded, in order, a
    failed batch contributing nothing while the later batches are still
    requested; when the count query fails it requests and yields
    nothing. *)
Theorem get_feeds_contract (api : Api) :
  page_calls (get_feeds api) = map (fun i => (i, 20%Z)) (py_range 0 (feeds_total api) 20) /\
  (forall i, In (i, 20%Z) (page_calls (get_feeds api))
             <-> (0 <= i < feeds_total api /\ i mod 20 = 0)%Z) /\
  (forall j, (0 <= j < feeds_total api)%Z ->
     exists i, In (i, 20%Z) (page_calls (get_feeds api)) /\ (i <= j < i + 20)%Z) /\
  (forall f, In f (yielded (get_feeds api)) -> feed_inactive f = false) /\
  yielded (get_feeds api) =
    flat_map (fun i => match get_feeds_page api i 20 with
                       | inl _ => [] | inr l => active_feeds l end)
             (py_range 0 (feeds_total api) 20) /\
  (forall e, count_feeds api = inl e ->
     page_calls (get_feeds api) = [] /\ yielded (get_feeds api) = []).
Proof.
  assert (Hin : forall i, In (i, 20%Z) (page_calls (get_feeds api))
                <-> (0 <= i < feeds_total api /\ i mod 20 = 0)%Z).
  { intros i; rewrite page_calls_get_feeds, <- py_range_in, in_map_iff; split.
    - intros [x [Hx Hr]]; injection Hx as ->; exact Hr.
    - intros H; exists i; split; [reflexivity|exact H]. }
  split; [apply page_calls_get_feeds|].
  split; [exact Hin|].
  split.
  { intros j Hj; exists (j - j mod 20)%Z.
    pose proof (Z.mod_pos_bound j 20 ltac:(lia)).
    pose proof (Z.div_mod j 20 ltac:(lia)).
    split; [|lia].
    apply Hin; split; [lia|].
    replace (j - j mod 20)%Z with (20 * (j / 20))%Z by lia.
    rewrite Z.mul_comm; apply Z.mod_mul; lia. }
  split.
  { intros f; rewrite yielded_get_feeds, in_flat_map.
    intros [i [_ Hf]]; destruct (get_feeds_page api i 20); [contradiction|].
    unfold active_feeds in Hf; apply filter_In in Hf as [_ Hf].
    destruct (feed_inactive f); [discriminate|reflexivity]. }
  split; [apply yielded_get_feeds|].
  intros e He.
  assert (Ht : feeds_total api = 0%Z) by (unfold feeds_total; rewrite He; reflexivity).
  rewrite page_calls_get_feeds, yielded_get_feeds, Ht; split; reflexivity.
Qed.

(** ** C2: the successor-marker pattern *)

Lemma skip_nonword_app p s :
  str_forallb marker_filler p = true -> skip_nonword (p ++ s) = skip_nonword s.
Proof.
  induction p as [|x p IH]; simpl; [reflexivity|].
  intros H; apply andb_true_iff in H as [Hx Hp].
  unfold marker_filler in Hx; rewrite Hx; exact (IH Hp).
Qed.

Lemma take_group_app t rest :
  str_forallb (fun x => negb (Ascii.eqb x ")"%char)) t = true ->
  take_group (t ++ String ")"%char rest) = Some t.
Proof.
  induction t as [|x t IH]; simpl; [reflexivity|].
  intros H; apply andb_true_iff in H as [Hx Ht].
  apply negb_true_iff in Hx; rewrite Hx, (IH Ht); reflexivity.
Qed.

Lemma re_search_next_head s g : match_next_at s = Some g -> re_search_next s = Some g.
Proof.
  intros H; destruct s as [|b s]; [discriminate H|].
  change (re_search_next (String b s))
    with (match match_next_at (String b s) with
          | Some g => Some g | None => re_search_next s end).
  rewrite H; reflexivity.
Qed.

Lemma word_not_bracket w : is_word w = true -> Ascii.eqb w "]"%char = false.
Proof.
  intros Hw; destruct (Ascii.eqb_spec w "]"%char) as [->|]; [discriminate|reflexivity].
Qed.

(** C2 (counterexample).  The pattern spells the first letter as [[Nn]]
    and the rest in lower case: an all-capitals [NEXT] is no marker. *)
Lemma next_marker_all_caps_rejected :
  re_search_next "[NEXT](http://x/2)" = None.
Proof. reflexivity. Qed.

(** C2 (amended).  A marker is [[], then [N] or [n], then [ext], then any
    run of non-word characters other than [\]], then [](], the target up
    to the first [)], then [)]; a marker at the start of the body is found
    and its target captured.  A word character right after [next] rules
    a marker out at that position.  So [next] and [Next!] links give
    their target, while [NEXT] and [nextsteps] links do not match. *)
Theorem next_marker_matching :
  (forall (c : ascii) (p t rest : string),
     (c = "N"%char \/ c = "n"%char) ->
     str_forallb marker_filler p = true ->
     str_forallb (fun x => negb (Ascii.eqb x ")"%char)) t = true ->
     re_search_next ("[" ++ String c ("ext" ++ p ++ "](" ++ t ++ ")" ++ rest)) = Some t) /\
  (forall (c w : ascii) (r : string),
     is_word w = true -> match_next_at ("[" ++ String c ("ext" ++ String w r)) = None) /\
  re_search_next "[next](http://x/2)" = Some "http://x/2" /\
  re_search_next "[Next!](http://x/2)" = Some "http://x/2" /\
  re_search_next "[NEXT](http://x/2)" = None /\
  re_search_next "[nextsteps](http://x/2)" = None.
Proof.
  split; [|split; [|repeat split; reflexivity]].
  - intros c p t rest Hc Hp Ht.
    assert (Hm : match_next_at ("[" ++ String c ("ext" ++ p ++ "](" ++ t ++ ")" ++ rest))
                 = Some t).
    { unfold match_next_at; simpl.
      assert (Hc' : (Ascii.eqb c "N"%char || Ascii.eqb c "n"%char) = true)
        by (destruct Hc as [->| ->]; reflexivity).
      rewrite Hc'; simpl.
      rewrite (skip_nonword_app _ _ Hp); simpl.
      exact (take_group_app _ _ Ht). }
    exact (re_search_next_head _ _ Hm).
  - intros c w r Hw; unfold match_next_at; simpl.
    destruct (Ascii.eqb c "N"%char || Ascii.eqb c "n"%char); [|reflexivity].
    simpl; rewrite Hw; simpl.
    destruct r as [|y r]; [reflexivity|].
    rewrite (word_not_bracket _ Hw); reflexivity.
Qed.

(** ** C1: notification and the result's type *)

(** C1 (failing input).  A feed with notifications on and no document; the
    store answers the creation with a validation error.  The pass issues
    the creation, then the notification, and only afterwards logs the
    store's error message. *)
Theorem notify_before_type_check :
  let evs := process_feed (ex_api [] (inr rejected) (ex_post "hello")) ex_feed in
  created evs = [post_document ex_feed "https://reddit.com/r/x/p1" (ex_post "hello") "u1"] /\
  notified evs = [notification ex_feed] /\
  logs evs = ["Reaching out to Reddit API... "; "Fetched post data."; "SKRUNK: invalid document"].
Proof. vm_compute; repeat split. Qed.

(** ** Counterexample for C5 *)

(** C5 (counterexample).  An active feed of the recognized kind with no
    stored document, whose URL is on another host: the pass creates
    nothing. *)
Lemma no_docs_other_host_creates_nothing :
  let feed := ex_feed_at "https://example.com/r/x/p1" in
  let api := ex_api [] (inr accepted) (ex_post "hello") in
  feed_inactive feed = false /\ feed_kind feed = markdown_recursive /\
  get_feed_documents api (doc_query feed) = inr [] /\
  created (process_feed api feed) = [].
Proof. vm_compute; repeat split. Qed.

(** ** Witnesses *)

Lemma update_mode_idempotent_witness :
  writes (process_feed (ex_api [ex_doc "d1" "hello"] (inr accepted) (ex_post "hello"))
                       ex_feed) = [] /\
  writes (fst (sync_once (fun _ => inr (ex_post "hello")) ex_feed
                 (snd (sync_once (fun _ => inr (ex_post "hello")) ex_feed
                         [ex_doc "d1" "old"])))) = [].
Proof.
  split.
  - apply (proj1 (update_mode_idempotent
                    (ex_api [ex_doc "d1" "hello"] (inr accepted) (ex_post "hello"))
                    ex_feed (ex_doc "d1" "hello") [] ex_p1 (ex_post "hello")
                    eq_refl eq_refl eq_refl ltac:(discriminate) eq_refl)).
    reflexivity.
  - apply (proj2 (update_mode_idempotent
                    (ex_api [ex_doc "d1" "old"] (inr accepted) (ex_post "hello"))
                    ex_feed (ex_doc "d1" "old") [] ex_p1 (ex_post "hello")
                    eq_refl eq_refl eq_refl ltac:(discriminate) eq_refl)
                 [ex_doc "d1" "old"]); reflexivity.
Defined.

Lemma marker_takes_create_path_witness :
  updated (process_feed (ex_api [ex_doc "d1" ex_marker_body] (inr accepted)
                                (ex_post "world")) ex_feed) = [] /\
  In (CSubmission ex_p2)
     (calls (process_feed (ex_api [ex_doc "d1" ex_marker_body] (inr accepted)
                                  (ex_post "world")) ex_feed)).
Proof.
  destruct (marker_takes_create_path
              (ex_api [ex_doc "d1" ex_marker_body] (inr accepted) (ex_post "world"))
              ex_feed (ex_doc "d1" ex_marker_body) [] ex_p1 ex_p2
              eq_refl eq_refl eq_refl eq_refl) as [_ [Hu Hin]].
  split; [exact Hu|apply Hin; vm_compute; reflexivity].
Defined.

Lemma no_docs_creates_from_feed_url_witness :
  created (process_feed (ex_api [] (inr accepted) (ex_post ex_marker_body)) ex_feed)
  = [post_document ex_feed ex_p1 (ex_post ex_marker_body) "u1"] /\
  created (process_feed (ex_api [] (inr accepted) (ex_post ex_marker_body))
                        (ex_feed_at "https://example.com/r/x/p1")) = [].
Proof.
  split.
  - apply (proj1 (no_docs_creates_from_feed_url
                    (ex_api [] (inr accepted) (ex_post ex_marker_body)) ex_feed
                    eq_refl eq_refl) (ex_post ex_marker_body) "u1");
      vm_compute; reflexivity.
  - apply (proj2 (no_docs_creates_from_feed_url
                    (ex_api [] (inr accepted) (ex_post ex_marker_body))
                    (ex_feed_at "https://example.com/r/x/p1") eq_refl eq_refl));
      vm_compute; reflexivity.
Defined.

Lemma missing_url_raises_witness :
  let d := {| doc_id := "d1"; doc_feed := "F1"; doc_author := None;
              doc_body := ex_marker_body; doc_body_html := ex_marker_body;
              doc_url := None |} in
  writes (process_feed (ex_api [d] (inr accepted) (ex_post "hello")) ex_feed) = [].
Proof.
  intros d.
  apply (proj1 (missing_url_raises (ex_api [d] (inr accepted) (ex_post "hello"))
                  ex_feed d [] eq_refl eq_refl)); reflexivity.
Defined.

Lemma empty_id_takes_create_path_witness :
  created (process_feed (ex_api [ex_doc "" "hello"] (inr accepted) (ex_post "hello"))
                        ex_feed)
  = [post_document ex_feed ex_p1 (ex_post "hello") "u1"].
Proof.
  apply (empty_id_takes_create_path
           (ex_api [ex_doc "" "hello"] (inr accepted) (ex_post "hello")) ex_feed
           (ex_doc "" "hello") [] ex_p1 (ex_post "hello") "u1");
    vm_compute; reflexivity.
Defined.

Lemma unsupported_feed_no_mutation_witness :
  calls (process_feed (ex_api [] (inr accepted) (ex_post "hello"))
                      (ex_feed_at "https://example.com/r/x/p1")) = [].
Proof.
  apply (unsupported_feed_no_mutation (ex_api [] (inr accepted) (ex_post "hello"))
           (ex_feed_at "https://example.com/r/x/p1")).
  right; right; exists "example.com"; split; [vm_compute; reflexivity|discriminate].
Defined.

Lemma origin_resolution_witness :
  resolve_origin (ex_feed_at "https://localhost/r/x")
  = (ex_feed_at "https://localhost/r/x",
     [ELog (origin_error_log (ex_feed_at "https://localhost/r/x") "localhost")], Stop).
Proof.
  apply (proj2 (proj2 (proj2 (proj2 (origin_resolution (ex_feed_at "https://localhost/r/x")))))
           "localhost"); vm_compute; reflexivity.
Defined.

Lemma get_feeds_contract_witness :
  page_calls (get_feeds ex_feeds_api) = [(0, 20); (20, 20); (40, 20)]%Z /\
  exists i, In (i, 20%Z) (page_calls (get_feeds ex_feeds_api)) /\ (i <= 44 < i + 20)%Z.
Proof.
  destruct (get_feeds_contract ex_feeds_api) as [Hp [_ [Hc _]]].
  split; [rewrite Hp; reflexivity|].
  apply Hc; change (feeds_total ex_feeds_api) with 45%Z; lia.
Defined.

Lemma next_marker_matching_witness :
  re_search_next ("[" ++ String "N"%char ("ext" ++ "!" ++ "](" ++ "http://x/2" ++ ")"
                  ++ " more")) = Some "http://x/2".
Proof.
  apply (proj1 next_marker_matching); [left; reflexivity|reflexivity|reflexivity].
Defined.

(** * Further properties of the script *)

(** ** What one pass can write *)

Lemma create_branch_writes api feed di db nd f :
  truthy di = false ->
  filter is_write (calls (evs_of (commit api feed di db nd f))) = [CCreateFeedDocument nd]
  \/ (filter is_write (calls (evs_of (commit api feed di db nd f)))
        = [CCreateFeedDocument nd; CSendNotification (notification feed)]
      /\ feed_notify feed = true /\ exists r, create_feed_document api nd = inr r).
Proof.
  intros Ht; rewrite (commit_create_calls _ _ _ _ _ _ Ht).
  destruct (create_feed_document api nd) as [e|r] eqn:Ec; [left; reflexivity|].
  destruct (feed_notify feed) eqn:En; [right|left; reflexivity].
  split; [reflexivity|split; [reflexivity|exists r; reflexivity]].
Qed.

(** X1.  Whatever the store and Reddit answer, one pass over a feed (with
    [main]'s exception handler) writes one of: nothing; one update of the
    newest document (whose id is non-empty); one creation for this feed;
    or one creation for this feed followed by one notification to its
    creator, the latter only when the feed's [notify] flag is set and the
    creation call returned a result.  It never both creates and updates,
    and never notifies without creating. *)
Theorem pass_writes_shape (api : Api) (feed : Feed) :
  let w := writes (process_feed api feed) in
  w = [] \/
  (exists d rest b, get_feed_documents api (doc_query feed) = inr (d :: rest)
                    /\ doc_id d <> "" /\ w = [CUpdateFeedDocument (doc_id d) b]) \/
  (exists nd, nd_feed nd = feed_id feed /\
     (w = [CCreateFeedDocument nd] \/
      (w = [CCreateFeedDocument nd; CSendNotification (notification feed)]
       /\ feed_notify feed = true /\ exists r, create_feed_document api nd = inr r))).
Proof.
  cbv zeta; rewrite writes_calls, process_feed_calls_eq.
  destruct (String.eqb_spec (feed_kind feed) markdown_recursive) as [Hk|Hk];
    [|left; reflexivity].
  destruct (reddit_host feed); [|left; reflexivity]; simpl andb.
  rewrite sync_feed_calls_prefix by (simpl; assumption || reflexivity).
  rewrite navigate_set_origin, (navigate_eq _ _ _ Hk).
  destruct (get_feed_documents api (doc_query feed)) as [e|[|d rest]] eqn:Eq;
    [left; reflexivity| |].
  - cbv beta iota zeta.
    destruct (submission api (feed_url feed)) as [[e|e]|post]; [left; reflexivity|left; reflexivity|].
    destruct (post_author post) as [a|]; [|left; reflexivity].
    right; right; exists (post_document feed (feed_url feed) post a); split; [reflexivity|].
    exact (create_branch_writes _ _ None None _ _ eq_refl).
  - destruct (doc_url d) as [u|]; [|left; reflexivity].
    destruct (re_search_next (doc_body d)) as [g|]; cbv beta iota zeta.
    + destruct (submission api g) as [[e|e]|post]; [left; reflexivity|left; reflexivity|].
      destruct (post_author post) as [a|]; [|left; reflexivity].
      right; right; exists (post_document feed g post a); split; [reflexivity|].
      exact (create_branch_writes _ _ None None _ _ eq_refl).
    + destruct (submission api u) as [[e|e]|post]; [left; reflexivity|left; reflexivity|].
      destruct (post_author post) as [a|]; [|left; reflexivity].
      destruct (truthy (Some (doc_id d))) eqn:Ht.
      * rewrite commit_calls, Ht.
        destruct (body_eqb _ _); [left; reflexivity|].
        right; left; exists d, rest, (post_selftext post); split; [reflexivity|].
        split; [|reflexivity].
        unfold truthy in Ht; apply negb_true_iff, String.eqb_neq in Ht; exact Ht.
      * right; right; exists (post_document feed u post a); split; [reflexivity|].
        exact (create_branch_writes _ _ _ _ _ _ Ht).
Qed.

(** ** Error paths of a pass *)

(** X2.  When [getFeedDocuments] raises a [SessionError], the pass issues
    that query, logs the error with the [SKRUNK:] prefix and ends: Reddit is
    not contacted and nothing is written. *)
Theorem doc_query_error_logged (api : Api) (feed : Feed) (e : string) :
  feed_kind feed = markdown_recursive -> reddit_host feed = true ->
  get_feed_documents api (doc_query feed) = inl e ->
  process_feed api feed
  = [ECall (CGetFeedDocuments (doc_query feed)); ELog ("SKRUNK: " ++ e)].
Proof.
  intros Hk Hh Eq; unfold process_feed.
  rewrite (fetch_next_document_origin _ _ Hk), resolve_origin_eq.
  unfold reddit_host in Hh.
  destruct (url_hostname (feed_url feed)) as [x| |h]; try discriminate Hh.
  rewrite Hh, sync_feed_eq, navigate_set_origin, (navigate_eq _ _ _ Hk), Eq.
  reflexivity.
Qed.

Lemma fetch_failure_events api feed f1 e1 nu db di :
  feed_kind feed = markdown_recursive -> reddit_host feed = true ->
  navigate api feed (set_origin feed (Some "reddit")) = (f1, e1, Cont (nu, db, di)) ->
  fetch_next_document api feed =
  match submission api nu with
  | inl (PrawInvalidURL m) =>
      (f1, (e1 ++ [ELog "Reaching out to Reddit API... "; ECall (CSubmission nu)])%list,
       Raise ("InvalidURL: " ++ m))
  | inl (PrawFetchError m) =>
      (f1, (e1 ++ fetch_logs_pre nu)%list, Raise ("PrawcoreException: " ++ m))
  | inr post =>
      match post_author post with
      | None => (f1, (e1 ++ fetch_logs_pre nu)%list,
                 Raise "AttributeError: 'NoneType' object has no attribute 'name'")
      | Some a =>
          let '(f3, e3, r3) := commit api (set_origin feed (Some "reddit")) di db
                                 (post_document (set_origin feed (Some "reddit")) nu post a) f1 in
          (f3, (e1 ++ fetch_logs_pre nu ++ e3)%list, r3)
      end
  end.
Proof.
  intros Hk Hh En.
  rewrite (fetch_next_document_origin _ _ Hk), resolve_origin_eq.
  unfold reddit_host in Hh.
  destruct (url_hostname (feed_url feed)) as [x| |h]; try discriminate Hh.
  rewrite Hh, sync_feed_eq, navigate_set_origin.
  rewrite En.
  rewrite (fetch_post_eq api (set_origin feed (Some "reddit")) nu f1 eq_refl).
  destruct (submission api nu) as [[m|m]|post]; [reflexivity|reflexivity|].
  destruct (post_author post) as [a|]; [|reflexivity].
  destruct (commit _ _ _ _ _ _) as [[f3 e3] r3]; reflexivity.
Qed.

(** X3.  A Reddit failure escapes [fetch_next_document] and [main] logs its
    [str] after [EXCEPTION: ]; the pass ends there and writes nothing.
    [reddit.submission(url=...)] raising [InvalidURL] does so before the
    [Fetched post data.] line; a failed lazy load of the post, or a post
    whose author is gone ([post.author] is [None], so [.name] raises
    [AttributeError]), after it. *)
Theorem reddit_failure_logged (api : Api) (feed : Feed) f1 e1 nu db di :
  feed_kind feed = markdown_recursive -> reddit_host feed = true ->
  navigate api feed (set_origin feed (Some "reddit")) = (f1, e1, Cont (nu, db, di)) ->
  (forall m, submission api nu = inl (PrawInvalidURL m) ->
     process_feed api feed =
     (e1 ++ [ELog "Reaching out to Reddit API... "; ECall (CSubmission nu);
             ELog ("EXCEPTION: " ++ m)])%list) /\
  (forall m, submission api nu = inl (PrawFetchError m) ->
     process_feed api feed = (e1 ++ fetch_logs_pre nu ++ [ELog ("EXCEPTION: " ++ m)])%list) /\
  (forall post, submission api nu = inr post -> post_author post = None ->
     process_feed api feed =
     (e1 ++ fetch_logs_pre nu
         ++ [ELog "EXCEPTION: 'NoneType' object has no attribute 'name'"])%list).
Proof.
  intros Hk Hh En; pose proof (fetch_failure_events _ _ _ _ _ _ _ Hk Hh En) as E.
  unfold process_feed; split; [|split].
  - intros m Es; rewrite E, Es; rewrite <- app_assoc; reflexivity.
  - intros m Es; rewrite E, Es; rewrite <- app_assoc; reflexivity.
  - intros post Es Ea; rewrite E, Es, Ea; rewrite <- app_assoc; reflexivity.
Qed.

(** ** Origin resolution of subdomains *)

Lemma py_split_app_sep c a b :
  py_split c (a ++ String c b) = (py_split c a ++ py_split c b)%list.
Proof.
  induction a as [|d a IH]; simpl; [rewrite Ascii.eqb_refl; reflexivity|].
  destruct (Ascii.eqb d c); [rewrite IH; reflexivity|].
  rewrite IH; pose proof (py_split_length c a) as Hl.
  destruct (py_split c a) as [|h t]; simpl in *; [lia|reflexivity].
Qed.

Lemma last_two_app_two {A} (l : list A) x y : last_two (l ++ [x; y])%list = [x; y].
Proof.
  unfold last_two; rewrite length_app; simpl.
  replace (length l + 2 - 2)%nat with (length l) by lia.
  rewrite skipn_app, skipn_all, Nat.sub_diag; reflexivity.
Qed.

(** X4.  The origin check compares the last two labels only: any
    subdomain of [reddit.com] ([old.reddit.com], [www.reddit.com], ...)
    resolves to the [reddit] origin, with nothing logged. *)
Theorem reddit_subdomain_resolves (feed : Feed) (a : string) :
  url_hostname (feed_url feed) = HostSome (a ++ ".reddit.com") ->
  resolve_origin feed = (set_origin feed (Some "reddit"), [], Cont tt).
Proof.
  intros Hh; rewrite resolve_origin_eq, Hh.
  change (a ++ ".reddit.com") with (a ++ String "."%char "reddit.com").
  rewrite py_split_app_sep.
  change (py_split "."%char "reddit.com") with ["reddit"; "com"].
  rewrite last_two_app_two; reflexivity.
Qed.

(** ** The successor-marker search *)

Lemma match_next_at_no_bracket c s :
  Ascii.eqb c "["%char = false -> match_next_at (String c s) = None.
Proof.
  intros Hc; unfold match_next_at.
  destruct s as [|? [|? [|? [|? ?]]]]; try reflexivity.
  rewrite Hc; reflexivity.
Qed.

Lemma re_search_next_skip pre s :
  str_forallb (fun x => negb (Ascii.eqb x "["%char)) pre = true ->
  re_search_next (pre ++ s) = re_search_next s.
Proof.
  induction pre as [|c pre IH]; [reflexivity|].
  intros H; apply andb_true_iff in H as [Hc Hp]; apply negb_true_iff in Hc.
  change (re_search_next (String c pre ++ s))
    with (match match_next_at (String c (pre ++ s)) with
          | Some g => Some g | None => re_search_next (pre ++ s) end).
  rewrite (match_next_at_no_bracket _ _ Hc); exact (IH Hp).
Qed.

(** X5.  [re.search] takes the first marker: when the text before a
    [[next](t)] link has no opening bracket, the link's target [t] (with no
    closing parenthesis) is the one captured, whatever markers follow. *)
Theorem first_next_marker_wins (pre t rest : string) :
  str_forallb (fun x => negb (Ascii.eqb x "["%char)) pre = true ->
  str_forallb (fun x => negb (Ascii.eqb x ")"%char)) t = true ->
  re_search_next (pre ++ "[next](" ++ t ++ ")" ++ rest) = Some t.
Proof.
  intros Hp Ht; rewrite (re_search_next_skip _ _ Hp).
  apply re_search_next_head; unfold match_next_at; simpl.
  exact (take_group_app _ _ Ht).
Qed.

Lemma take_group_no_paren s t : take_group s = Some t -> has_char ")"%char t = false.
Proof.
  revert t; induction s as [|c s IH]; simpl; intros t H; [discriminate H|].
  destruct (Ascii.eqb_spec c ")"%char) as [Hc|Hc].
  - injection H as <-; reflexivity.
  - destruct (take_group s) as [g|]; simpl in H; [|discriminate H].
    injection H as <-; unfold has_char; simpl.
    destruct (Ascii.eqb_spec c ")"%char); [contradiction|].
    exact (IH g eq_refl).
Qed.

Lemma match_next_at_no_paren s t : match_next_at s = Some t -> has_char ")"%char t = false.
Proof.
  unfold match_next_at; intros H.
  destruct s as [|? [|? [|? [|? [|? r]]]]]; try discriminate H.
  destruct (_ && _); [|discriminate H].
  destruct (skip_nonword r) as [|k [|p r']]; try discriminate H.
  destruct (_ && _); [exact (take_group_no_paren _ _ H)|discriminate H].
Qed.

(** X6.  The successor URL read from a marker never contains a closing
    parenthesis: group 1 is [[^)]*]. *)
Theorem next_target_no_paren (s t : string) :
  re_search_next s = Some t -> has_char ")"%char t = false.
Proof.
  induction s as [|c s IH]; intros H; [discriminate H|].
  change (re_search_next (String c s))
    with (match match_next_at (String c s) with
          | Some g => Some g | None => re_search_next s end) in H.
  destruct (match_next_at (String c s)) as [g|] eqn:Em.
  - injection H as <-; exact (match_next_at_no_paren _ _ Em).
  - exact (IH H).
Qed.

(** ** The enumeration of feeds *)

(** X7.  [get_feeds] requests [ceil(total / 20)] batches: none when the
    count is zero or negative (or its query failed, the total being 0). *)
Theorem batch_request_count (api : Api) :
  length (page_calls (get_feeds api)) =
  if (0 <? feeds_total api)%Z then Z.to_nat ((feeds_total api + 19) / 20) else O.
Proof.
  rewrite page_calls_get_feeds, length_map; unfold py_range, range_len.
  rewrite length_map, length_seq.
  destruct (0 <? feeds_total api)%Z; [|reflexivity].
  replace (feeds_total api - 0 + 20 - 1)%Z with (feeds_total api + 19)%Z by lia; reflexivity.
Qed.

(** ** One iteration of [main] *)

(** X8.  When the count query raises, an iteration of [main] issues that
    query, logs the error and processes no feed; when the count is zero or
    negative it issues only the count query. *)
Theorem cycle_without_feeds (api : Api) :
  (forall e, count_feeds api = inl e ->
     main_cycle api = [ECall CCountFeeds; ELog ("SKRUNK: " ++ e)]) /\
  (forall t, count_feeds api = inr t -> (t <= 0)%Z ->
     main_cycle api = [ECall CCountFeeds]).
Proof.
  unfold main_cycle; split.
  - intros e Hc; rewrite get_feeds_eq; unfold feeds_total; rewrite Hc; reflexivity.
  - intros t Hc Ht; rewrite get_feeds_eq; unfold feeds_total; rewrite Hc.
    unfold py_range, range_len.
    replace (0 <? t)%Z with false by (symmetry; apply Z.ltb_ge; exact Ht).
    reflexivity.
Qed.

Lemma writes_flat_map {A} (g : A -> list Event) l :
  writes (flat_map g l) = flat_map (fun x => writes (g x)) l.
Proof.
  induction l as [|x l IH]; simpl; [reflexivity|]. rewrite writes_app, IH; reflexivity.
Qed.

Lemma writes_get_feeds api : writes (get_feeds api) = [].
Proof.
  rewrite get_feeds_eq, writes_app, writes_flat_map.
  assert (Hb : forall i, writes (get_feeds_batch api i) = []).
  { intros i; rewrite writes_calls, get_feeds_batch_calls; reflexivity. }
  rewrite (flat_map_ext _ (fun _ => []) Hb).
  induction (py_range 0 (feeds_total api) 20) as [|i l IH]; simpl.
  - destruct (count_feeds api); reflexivity.
  - exact IH.
Qed.

Lemma writes_main_steps api evs :
  writes evs = [] ->
  writes (flat_map (main_step api) evs)
  = flat_map (fun f => writes (process_feed api f)) (yielded evs).
Proof.
  induction evs as [|e evs IH]; intros H; [reflexivity|].
  change (e :: evs) with ([e] ++ evs)%list in H.
  rewrite writes_app in H; apply app_eq_nil in H as [He Hevs].
  simpl flat_map; rewrite writes_app, (IH Hevs).
  destruct e as [c|m|f]; simpl.
  - simpl in He; destruct (is_write c); [discriminate He|reflexivity].
  - reflexivity.
  - reflexivity.
Qed.

(** X9.  The writes of an iteration of [main] are those of the passes over
    the yielded feeds, in the order they are yielded: an exception in one
    feed's pass is logged and the following feeds are still processed. *)
Theorem cycle_writes (api : Api) :
  writes (main_cycle api)
  = flat_map (fun f => writes (process_feed api f)) (yielded (get_feeds api)).
Proof.
  unfold main_cycle; apply writes_main_steps, writes_get_feeds.
Qed.

Lemma commit_no_query api feed di db d f q :
  ~ In (CGetFeedDocuments q) (calls (evs_of (commit api feed di db d f))).
Proof.
  rewrite commit_calls, create_call_calls.
  destruct di as [id|];
    [destruct (truthy (Some id)); [destruct (body_eqb db (nd_body d))|]|];
    try (destruct (create_feed_document api d); [|destruct (feed_notify feed)]);
    simpl; intuition discriminate.
Qed.

Lemma process_feed_query api feed q :
  In (CGetFeedDocuments q) (calls (process_feed api feed)) -> q = doc_query feed.
Proof.
  rewrite process_feed_calls_eq.
  destruct (String.eqb (feed_kind feed) markdown_recursive && reddit_host feed) eqn:E;
    [|intros []].
  apply andb_true_iff in E as [Hk _]; apply String.eqb_eq in Hk.
  rewrite sync_feed_calls_prefix by (simpl; assumption || reflexivity).
  intros [H|H]; [injection H as <-; reflexivity|].
  destruct (navigate _ _ _) as [[f1 e1] [[[nu db] di]| |x]]; try contradiction.
  destruct H as [H|H]; [discriminate H|].
  destruct (submission api nu) as [[e|e]|post]; [contradiction|contradiction|].
  destruct (post_author post) as [a|]; [|contradiction].
  apply commit_no_query in H; contradiction.
Qed.

Lemma get_feeds_no_query api q : ~ In (CGetFeedDocuments q) (calls (get_feeds api)).
Proof.
  rewrite get_feeds_eq, calls_app, calls_flat_map, in_app_iff.
  intros [H|H].
  - destruct (count_feeds api); simpl in H; intuition discriminate.
  - apply in_flat_map in H as [i [_ Hi]].
    rewrite get_feeds_batch_calls in Hi; simpl in Hi; intuition discriminate.
Qed.

Lemma yielded_get_feeds_active api f :
  In f (yielded (get_feeds api)) -> feed_inactive f = false.
Proof.
  rewrite yielded_get_feeds; intros H.
  apply in_flat_map in H as [i [_ Hi]].
  destruct (get_feeds_page api i 20) as [e|l]; [contradiction|].
  unfold active_feeds in Hi; apply filter_In in Hi as [_ Hf].
  apply negb_true_iff in Hf; exact Hf.
Qed.

(** X10.  In an iteration of [main], every [getFeedDocuments] query is the
    query of a feed that [get_feeds] yielded, and that feed is active: an
    inactive feed is never processed. *)
Theorem cycle_queries_active_feeds (api : Api) (q : DocQuery) :
  In (CGetFeedDocuments q) (calls (main_cycle api)) ->
  exists f, In f (yielded (get_feeds api)) /\ feed_inactive f = false /\ q = doc_query f.
Proof.
  unfold main_cycle; rewrite calls_flat_map; intros H.
  apply in_flat_map in H as [e [He Hq]].
  destruct e as [c|m|f]; simpl in Hq.
  - destruct Hq as [Hc|[]]; subst c.
    exfalso; apply (get_feeds_no_query api q).
    unfold calls; apply in_flat_map; exists (ECall (CGetFeedDocuments q)); simpl; auto.
  - contradiction.
  - assert (Hf : In f (yielded (get_feeds api)))
      by (unfold yielded; apply in_flat_map; exists (EYield f); simpl; auto).
    exists f; split; [exact Hf|split; [exact (yielded_get_feeds_active _ _ Hf)|]].
    exact (process_feed_query _ _ _ Hq).
Qed.

(** ** The feed dict *)

Lemma keeps_bind {A B} (m : M A) (k : A -> M B) :
  keeps m -> (forall a, keeps (k a)) -> keeps (bind m k).
Proof.
  intros Hm Hk f; unfold bind.
  specialize (Hm f); destruct (m f) as [[f1 e1] r1]; simpl in Hm; subst f1.
  destruct r1 as [a| |x]; [|reflexivity|reflexivity].
  specialize (Hk a f); destruct (k a f) as [[f2 e2] r2]; exact Hk.
Qed.

Lemma keeps_ret {A} (a : A) : keeps (ret a).
Proof. intros f; reflexivity. Qed.

Lemma keeps_log m : keeps (log m).
Proof. intros f; reflexivity. Qed.

Lemma keeps_stop {A} : keeps (@stop A).
Proof. intros f; reflexivity. Qed.

Lemma keeps_raise {A} x : keeps (@raise A x).
Proof. intros f; reflexivity. Qed.

Lemma keeps_get_feed : keeps get_feed.
Proof. intros f; reflexivity. Qed.

Lemma keeps_call {E R} c (answer : E + R) : keeps (call c answer).
Proof. intros f; reflexivity. Qed.

Ltac keeps_tac :=
  repeat match goal with
  | |- keeps (bind _ _) => apply keeps_bind; [|intros ?]
  | |- keeps (match ?x with _ => _ end) => destruct x
  | |- keeps (ret _) => apply keeps_ret
  | |- keeps (log _) => apply keeps_log
  | |- keeps stop => apply keeps_stop
  | |- keeps (raise _) => apply keeps_raise
  | |- keeps get_feed => apply keeps_get_feed
  | |- keeps (call _ _) => apply keeps_call
  | |- _ => progress cbv beta iota zeta
  end.

Lemma keeps_sync_feed api feed : keeps (sync_feed api feed).
Proof.
  unfold sync_feed, navigate, fetch_post, commit, commit_call, commit_result, create_call.
  keeps_tac.
Qed.

(** X11.  The only change a pass makes to the feed dict it is given is
    setting its ['origin'] key to ['reddit']: afterwards the dict is the
    original one, or the original one with that origin. *)
Theorem pass_sets_only_origin (api : Api) (feed : Feed) :
  let f' := fst (fst (fetch_next_document api feed)) in
  f' = feed \/ f' = set_origin feed (Some "reddit").
Proof.
  cbv zeta.
  destruct (String.eqb_spec (feed_kind feed) markdown_recursive) as [Hk|Hk];
    [|rewrite (fetch_next_document_kind _ _ Hk); left; reflexivity].
  rewrite (fetch_next_document_origin _ _ Hk), resolve_origin_eq.
  destruct (url_hostname (feed_url feed)) as [e| |h]; [left; reflexivity|left; reflexivity|].
  destruct (list_string_eqb _ _); [|left; reflexivity].
  cbv iota beta; right.
  pose proof (keeps_sync_feed api (set_origin feed (Some "reddit"))
                (set_origin feed (Some "reddit"))) as Hs.
  destruct (sync_feed _ _ _) as [[f2 e2] r2]; exact Hs.
Qed.

(** ** The hostname compared with [reddit.com] *)

Lemma partition_first_absent c s : has_char c s = false -> partition_first c s = None.
Proof.
  unfold has_char; induction s as [|d s IH]; simpl; [reflexivity|].
  intros H; apply orb_false_iff in H as [H1 H2].
  rewrite H1, (IH H2); reflexivity.
Qed.

Lemma after_last_absent c s : has_char c s = false -> after_last c s = s.
Proof.
  unfold has_char; destruct s as [|d s]; simpl; [reflexivity|].
  intros H; apply orb_false_iff in H as [H1 H2].
  rewrite H2, H1; reflexivity.
Qed.

Lemma before_first_absent c s : has_char c s = false -> before_first c s = s.
Proof. intros H; unfold before_first; rewrite (partition_first_absent _ _ H); reflexivity. Qed.

(** X12.  For a netloc with no userinfo, port, brackets or zone, the
    hostname is the netloc lower-cased; so a host spelled with upper-case
    letters, such as [WWW.Reddit.COM], still resolves to the [reddit]
    origin when it lower-cases to [reddit.com] or to a subdomain of it. *)
Theorem hostname_lowercase (feed : Feed) :
  plain_netloc (netloc_of (feed_url feed)) = true -> netloc_of (feed_url feed) <> "" ->
  url_hostname (feed_url feed) = HostSome (str_lower (netloc_of (feed_url feed))) /\
  ((str_lower (netloc_of (feed_url feed)) = "reddit.com" \/
    exists a, str_lower (netloc_of (feed_url feed)) = a ++ ".reddit.com") ->
   resolve_origin feed = (set_origin feed (Some "reddit"), [], Cont tt)).
Proof.
  intros Hp Hne.
  assert (Hh : url_hostname (feed_url feed) = HostSome (str_lower (netloc_of (feed_url feed)))).
  { unfold url_hostname, plain_netloc in *; cbv zeta.
    remember (netloc_of (feed_url feed)) as n eqn:En; clear En.
    apply negb_true_iff in Hp.
    apply orb_false_iff in Hp as [Hp Hpct]; apply orb_false_iff in Hp as [Hp Hrb].
    apply orb_false_iff in Hp as [Hp Hlb]; apply orb_false_iff in Hp as [Hat Hcol].
    rewrite Hlb, Hrb; simpl xorb; cbv iota.
    rewrite (after_last_absent _ _ Hat), (partition_first_absent _ _ Hlb),
      (before_first_absent _ _ Hcol).
    destruct n as [|c r]; [contradiction|].
    rewrite (partition_first_absent _ _ Hpct); reflexivity. }
  split; [exact Hh|].
  intros Hl; rewrite resolve_origin_eq, Hh.
  destruct Hl as [Hl|[a Hl]]; rewrite Hl; [reflexivity|].
  change (a ++ ".reddit.com") with (a ++ String "."%char "reddit.com").
  rewrite py_split_app_sep.
  change (py_split "."%char "reddit.com") with ["reddit"; "com"].
  rewrite last_two_app_two; reflexivity.
Qed.

(** ** Updates *)

Lemma create_branch_no_update api feed di db nd f i b :
  truthy di = false ->
  ~ In (CUpdateFeedDocument i b) (filter is_write (calls (evs_of (commit api feed di db nd f)))).
Proof.
  intros Ht; destruct (create_branch_writes api feed di db nd f Ht) as [E|[E _]];
    rewrite E; simpl; intuition discriminate.
Qed.

(** X13.  An update is only issued for the newest document, when it has no
    successor marker, and with a body different from the stored one: a
    pass never rewrites a document with the body it already has. *)
Theorem update_only_on_change (api : Api) (feed : Feed) (i b : string) :
  In (CUpdateFeedDocument i b) (writes (process_feed api feed)) ->
  exists d rest, get_feed_documents api (doc_query feed) = inr (d :: rest)
                 /\ re_search_next (doc_body d) = None
                 /\ i = doc_id d /\ b <> doc_body d.
Proof.
  rewrite writes_calls, process_feed_calls_eq.
  destruct (String.eqb_spec (feed_kind feed) markdown_recursive) as [Hk|Hk];
    [|intros []].
  destruct (reddit_host feed); [|intros []]; simpl andb.
  rewrite sync_feed_calls_prefix by (simpl; assumption || reflexivity).
  rewrite navigate_set_origin, (navigate_eq _ _ _ Hk).
  destruct (get_feed_documents api (doc_query feed)) as [e|[|d rest]] eqn:Eq;
    [intros []| |].
  - cbv beta iota zeta.
    destruct (submission api (feed_url feed)) as [[e|e]|post]; [intros []|intros []|].
    destruct (post_author post) as [a|]; [|intros []].
    intros H; exfalso; exact (create_branch_no_update _ _ None None _ _ _ _ eq_refl H).
  - destruct (doc_url d) as [u|]; [|intros []].
    destruct (re_search_next (doc_body d)) as [g|] eqn:Em; cbv beta iota zeta.
    + destruct (submission api g) as [[e|e]|post]; [intros []|intros []|].
      destruct (post_author post) as [a|]; [|intros []].
      intros H; exfalso; exact (create_branch_no_update _ _ None None _ _ _ _ eq_refl H).
    + destruct (submission api u) as [[e|e]|post]; [intros []|intros []|].
      destruct (post_author post) as [a|]; [|intros []].
      destruct (truthy (Some (doc_id d))) eqn:Ht.
      * rewrite commit_calls, Ht.
        destruct (body_eqb _ _) eqn:Eb; [intros []|].
        intros [H|[]]; injection H as <- <-.
        exists d, rest; split; [reflexivity|split; [exact Em|split; [reflexivity|]]].
        unfold body_eqb in Eb; apply String.eqb_neq in Eb.
        intros Hb; apply Eb; symmetry; exact Hb.
      * intros H; exfalso; exact (create_branch_no_update _ _ _ _ _ _ _ _ Ht H).
Qed.

(** ** Instances of the properties above *)

Lemma doc_query_error_logged_witness :
  process_feed (ex_failing_api (inl "session expired") (inr (ex_post "hello"))) ex_feed
  = [ECall (CGetFeedDocuments (doc_query ex_feed)); ELog ("SKRUNK: " ++ "session expired")].
Proof.
  apply (doc_query_error_logged (ex_failing_api (inl "session expired") (inr (ex_post "hello")))
           ex_feed "session expired"); vm_compute; reflexivity.
Defined.

Lemma reddit_failure_logged_witness :
  process_feed (ex_failing_api (inr []) (inl (PrawInvalidURL ex_invalid_url_msg))) ex_feed
  = [ECall (CGetFeedDocuments (doc_query ex_feed));
     ELog "Reaching out to Reddit API... "; ECall (CSubmission ex_p1);
     ELog ("EXCEPTION: " ++ ex_invalid_url_msg)] /\
  process_feed (ex_failing_api (inr []) (inl (PrawFetchError "received 404 HTTP response")))
               ex_feed
  = ([ECall (CGetFeedDocuments (doc_query ex_feed))] ++ fetch_logs_pre ex_p1
      ++ [ELog ("EXCEPTION: " ++ "received 404 HTTP response")])%list /\
  process_feed (ex_failing_api (inr []) (inr ex_orphan_post)) ex_feed
  = ([ECall (CGetFeedDocuments (doc_query ex_feed))] ++ fetch_logs_pre ex_p1
      ++ [ELog "EXCEPTION: 'NoneType' object has no attribute 'name'"])%list.
Proof.
  split; [|split].
  - refine (proj1 (reddit_failure_logged
                     (ex_failing_api (inr []) (inl (PrawInvalidURL ex_invalid_url_msg))) ex_feed
                     (set_origin ex_feed (Some "reddit"))
                     [ECall (CGetFeedDocuments (doc_query ex_feed))] ex_p1 None None
                     _ _ _) ex_invalid_url_msg _); vm_compute; reflexivity.
  - refine (proj1 (proj2 (reddit_failure_logged
                     (ex_failing_api (inr []) (inl (PrawFetchError "received 404 HTTP response")))
                     ex_feed (set_origin ex_feed (Some "reddit"))
                     [ECall (CGetFeedDocuments (doc_query ex_feed))] ex_p1 None None
                     _ _ _)) "received 404 HTTP response" _); vm_compute; reflexivity.
  - refine (proj2 (proj2 (reddit_failure_logged
                     (ex_failing_api (inr []) (inr ex_orphan_post)) ex_feed
                     (set_origin ex_feed (Some "reddit"))
                     [ECall (CGetFeedDocuments (doc_query ex_feed))] ex_p1 None None
                     _ _ _)) ex_orphan_post _ _); vm_compute; reflexivity.
Defined.

Lemma reddit_subdomain_resolves_witness :
  resolve_origin (ex_feed_at "https://Old.Reddit.com/r/x/p1")
  = (set_origin (ex_feed_at "https://Old.Reddit.com/r/x/p1") (Some "reddit"), [], Cont tt).
Proof.
  apply (reddit_subdomain_resolves (ex_feed_at "https://Old.Reddit.com/r/x/p1") "old");
    vm_compute; reflexivity.
Defined.

Lemma first_next_marker_wins_witness :
  re_search_next ("see " ++ "[next](" ++ "http://x/2" ++ ")" ++ " or [next](http://x/3)")
  = Some "http://x/2".
Proof. apply first_next_marker_wins; reflexivity. Defined.

Lemma next_target_no_paren_witness : has_char ")"%char "http://x/(2" = false.
Proof. apply (next_target_no_paren "[Next](http://x/(2))"); vm_compute; reflexivity. Defined.

Lemma cycle_without_feeds_witness :
  main_cycle (ex_failing_api (inr []) (inl (PrawFetchError "unused")))
  = [ECall CCountFeeds; ELog ("SKRUNK: " ++ "session expired")] /\
  main_cycle (ex_api [] (inr accepted) (ex_post "hello")) = [ECall CCountFeeds].
Proof.
  split.
  - apply (proj1 (cycle_without_feeds (ex_failing_api (inr []) (inl (PrawFetchError "unused")))) "session expired");
      reflexivity.
  - apply (proj2 (cycle_without_feeds (ex_api [] (inr accepted) (ex_post "hello"))) 0%Z);
      [reflexivity|lia].
Defined.

Lemma cycle_queries_active_feeds_witness :
  exists f, In f (yielded (get_feeds ex_feeds_api)) /\ feed_inactive f = false
            /\ doc_query ex_feed = doc_query f.
Proof.
  apply (cycle_queries_active_feeds ex_feeds_api (doc_query ex_feed)).
  vm_compute; repeat first [left; reflexivity | right].
Defined.

Lemma hostname_lowercase_witness :
  url_hostname (feed_url (ex_feed_at "https://WWW.Reddit.COM/r/x/comments/abc/t"))
  = HostSome "www.reddit.com" /\
  resolve_origin (ex_feed_at "https://WWW.Reddit.COM/r/x/comments/abc/t")
  = (set_origin (ex_feed_at "https://WWW.Reddit.COM/r/x/comments/abc/t") (Some "reddit"),
     [], Cont tt).
Proof.
  destruct (hostname_lowercase (ex_feed_at "https://WWW.Reddit.COM/r/x/comments/abc/t")
              eq_refl ltac:(vm_compute; discriminate)) as [H1 H2].
  split; [exact H1|].
  apply H2; right; exists "www"; vm_compute; reflexivity.
Defined.

Lemma update_only_on_change_witness :
  exists d rest,
    get_feed_documents (ex_api [ex_doc "D1" "old body"] (inr accepted) (ex_post "new body"))
                       (doc_query ex_feed) = inr (d :: rest)
    /\ re_search_next (doc_body d) = None /\ "D1" = doc_id d /\ "new body" <> doc_body d.
Proof.
  apply (update_only_on_change (ex_api [ex_doc "D1" "old body"] (inr accepted)
                                  (ex_post "new body")) ex_feed "D1" "new body").
  vm_compute; left; reflexivity.
Defined.
